(** * Scroll-driven animation controllers of the meduza page

    A shallow embedding of the four animation controllers
    (LenisScroll.js, HorizontalScroll.js, ComplexHorizontal.js and the
    MeduzaHorizontal class) and of the root application object of main.js,
    followed by the properties of the phase dispatcher, the clone and FLIP
    life cycle, the visibility state machine, the card gallery and teardown.

    Conventions.
    - A JavaScript number is a rational ([Q]); the decimal literals of the
      source are the same decimal literals here ([0.05] is [5/100]). The
      module [Binary64] repeats the dispatcher's arithmetic on doubles and
      compares the two at the phase boundaries.
    - A field that holds [null] or an object is an [option]; a member access
      through such a field goes through [JS.deref], which throws a TypeError
      on [None], and an [if (x)] test is [JS.truthy x].
    - A method that reaches a member access returns a [JS.completion]; a
      method that only hands values to the animation engine is a plain
      function on the controller state.
    - Inline styles written with [gsap.set] are fields of the state; [None]
      is "no inline value" (the stylesheet value shows).
    - Objects created at run time (clone nodes, animations, tweens) are
      numbered from a counter [nextId] of the state; the engine's live
      animations and the children of [document.body] are kept next to the
      fields that refer to them.
    - Geometry read from the layout (bounding boxes, offsets) and the image
      parallax of HorizontalScroll.js play no part below and are left out. *)

From Stdlib Require Import QArith Qminmax Lqa Qcanon PrimFloat.
From stdpp Require Import gmap list.

(** ** JavaScript completions *)

Module JS.

Inductive error : Type := TypeError.

Inductive completion (A : Type) : Type :=
| Normal (a : A)
| Throw (e : error).
Arguments Normal {A} a.
Arguments Throw {A} e.

Definition bind {A B} (c : completion A) (k : A -> completion B) : completion B :=
  match c with
  | Normal a => k a
  | Throw e => Throw e
  end.

(** [r.member]: a TypeError when [r] is [null]. *)
Definition deref {A} (r : option A) : completion A :=
  match r with
  | Some a => Normal a
  | None => Throw TypeError
  end.

(** [if (r)] on a reference. *)
Definition truthy {A} (r : option A) : bool :=
  match r with
  | Some _ => true
  | None => false
  end.

(** [l.forEach(f)] for a callback that may throw. *)
Fixpoint forEach {A S} (f : A -> S -> completion S) (l : list A) (s : S)
  : completion S :=
  match l with
  | [] => Normal s
  | a :: l' => bind (f a s) (forEach f l')
  end.

Definition completes {A} (c : completion A) : Prop := exists a, c = Normal a.

(** [x <= y] and [x > y] on numbers. *)
Definition leb (x y : Q) : bool := Qle_bool x y.
Definition gtb (x y : Q) : bool := negb (Qle_bool x y).

End JS.

Notation "'do' x <- c ; k" := (JS.bind c (fun x => k))
(at level 10, x pattern, c at level 100, k at level 200).

(** ** ComplexHorizontal.js *)

Module ComplexHorizontal.
Import JS.
Local Open Scope Q_scope.

Inductive Element : Type :=
| App | Marquee | MarqueeTrack | Horizontal | HorizontalWrapper | PinnedImg.

(** What [document.querySelector] finds for the selectors of
    [setupElements]. *)
Record Document : Type := {
  doc_app : bool;               (* #app *)
  doc_marquee : bool;           (* .marquee *)
  doc_marqueeTrack : bool;      (* .marquee__track *)
  doc_horizontal : bool;        (* .horizontal *)
  doc_horizontalWrapper : bool; (* .horizontal__wrapper *)
  doc_pinItem : bool;           (* .marquee__item--pin *)
  doc_pinItemImg : bool         (* its img *)
}.

Definition querySelector (found : bool) (e : Element) : option Element :=
  if found then Some e else None.

Inductive Trigger : Type :=
| MarqueeTrigger | PinTrigger | CloneTrigger | FlipTrigger | MainTrigger.

(** The two layouts [gsap.set] gives the clone: over the source image with
    [rotate(-5deg)], and the fullscreen target of the FLIP. *)
Inductive Layout : Type := OverImage | Fullscreen.

Record Node : Type := { node_layout : Layout; node_x : option Q }.

(** A paused [Flip.from] animation: its target node and scrub position. *)
Record Flip : Type := { flip_id : nat; flip_target : nat; flip_progress : Q }.

Definition set_x (v : Q) (n : Node) : Node :=
  {| node_layout := node_layout n; node_x := Some v |}.
Definition set_layout (l : Layout) (n : Node) : Node :=
  {| node_layout := l; node_x := node_x n |}.
Definition set_progress (v : Q) (f : Flip) : Flip :=
  {| flip_id := flip_id f; flip_target := flip_target f; flip_progress := v |}.

(** The callbacks the scroll triggers of the controller fire, and [destroy]. *)
Inductive Event : Type :=
| CloneEnter | CloneEnterBack | CloneLeaveBack
| FlipEnter | FlipLeaveBack
| MarqueeUpdate (progress : Q)
| MainUpdate (progress : Q)
| Destroy.

Section Engine.

(** Colours and [gsap.utils.interpolate] belong to the animation engine. *)
Context {Color : Type}.
Variable interpolate : Color -> Color -> Q -> Color.

Record State : Type := mkState {
  container : option Element;
  marqueeSection : option Element;
  marqueeTrack : option Element;
  pinnedMarqueeImg : option Element;
  horizontalSection : option Element;
  horizontalWrapper : option Element;
  pinnedImgClone : option nat;
  isImgCloneActive : bool;
  flipAnimation : option Flip;
  lightColor : Color;
  darkColor : Color;
  scrollTriggers : list Trigger;
  (* inline styles *)
  backgroundColor : option Color;   (* of the container *)
  trackX : option Q;                (* marquee track, percent *)
  wrapperX : option Q;              (* horizontal wrapper, percent *)
  imgOpacity : option Q;            (* source image *)
  (* the document and the engine *)
  nodes : gmap nat Node;            (* clone nodes, attached or not *)
  body : list nat;                  (* clones appended to document.body *)
  liveFlips : list nat;             (* Flip animations not yet killed *)
  nextId : nat
}.

Definition set_pinnedImgClone v s :=
  mkState (container s) (marqueeSection s) (marqueeTrack s) (pinnedMarqueeImg s)
    (horizontalSection s) (horizontalWrapper s) v (isImgCloneActive s)
    (flipAnimation s) (lightColor s) (darkColor s) (scrollTriggers s)
    (backgroundColor s) (trackX s) (wrapperX s) (imgOpacity s)
    (nodes s) (body s) (liveFlips s) (nextId s).
Definition set_isImgCloneActive v s :=
  mkState (container s) (marqueeSection s) (marqueeTrack s) (pinnedMarqueeImg s)
    (horizontalSection s) (horizontalWrapper s) (pinnedImgClone s) v
    (flipAnimation s) (lightColor s) (darkColor s) (scrollTriggers s)
    (backgroundColor s) (trackX s) (wrapperX s) (imgOpacity s)
    (nodes s) (body s) (liveFlips s) (nextId s).
Definition set_flipAnimation v s :=
  mkState (container s) (marqueeSection s) (marqueeTrack s) (pinnedMarqueeImg s)
    (horizontalSection s) (horizontalWrapper s) (pinnedImgClone s)
    (isImgCloneActive s) v (lightColor s) (darkColor s) (scrollTriggers s)
    (backgroundColor s) (trackX s) (wrapperX s) (imgOpacity s)
    (nodes s) (body s) (liveFlips s) (nextId s).
Definition set_scrollTriggers v s :=
  mkState (container s) (marqueeSection s) (marqueeTrack s) (pinnedMarqueeImg s)
    (horizontalSection s) (horizontalWrapper s) (pinnedImgClone s)
    (isImgCloneActive s) (flipAnimation s) (lightColor s) (darkColor s) v
    (backgroundColor s) (trackX s) (wrapperX s) (imgOpacity s)
    (nodes s) (body s) (liveFlips s) (nextId s).
Definition set_backgroundColor v s :=
  mkState (container s) (marqueeSection s) (marqueeTrack s) (pinnedMarqueeImg s)
    (horizontalSection s) (horizontalWrapper s) (pinnedImgClone s)
    (isImgCloneActive s) (flipAnimation s) (lightColor s) (darkColor s)
    (scrollTriggers s) v (trackX s) (wrapperX s) (imgOpacity s)
    (nodes s) (body s) (liveFlips s) (nextId s).
Definition set_trackX v s :=
  mkState (container s) (marqueeSection s) (marqueeTrack s) (pinnedMarqueeImg s)
    (horizontalSection s) (horizontalWrapper s) (pinnedImgClone s)
    (isImgCloneActive s) (flipAnimation s) (lightColor s) (darkColor s)
    (scrollTriggers s) (backgroundColor s) v (wrapperX s) (imgOpacity s)
    (nodes s) (body s) (liveFlips s) (nextId s).
Definition set_wrapperX v s :=
  mkState (container s) (marqueeSection s) (marqueeTrack s) (pinnedMarqueeImg s)
    (horizontalSection s) (horizontalWrapper s) (pinnedImgClone s)
    (isImgCloneActive s) (flipAnimation s) (lightColor s) (darkColor s)
    (scrollTriggers s) (backgroundColor s) (trackX s) v (imgOpacity s)
    (nodes s) (body s) (liveFlips s) (nextId s).
Definition set_imgOpacity v s :=
  mkState (container s) (marqueeSection s) (marqueeTrack s) (pinnedMarqueeImg s)
    (horizontalSection s) (horizontalWrapper s) (pinnedImgClone s)
    (isImgCloneActive s) (flipAnimation s) (lightColor s) (darkColor s)
    (scrollTriggers s) (backgroundColor s) (trackX s) (wrapperX s) v
    (nodes s) (body s) (liveFlips s) (nextId s).
Definition set_nodes v s :=
  mkState (container s) (marqueeSection s) (marqueeTrack s) (pinnedMarqueeImg s)
    (horizontalSection s) (horizontalWrapper s) (pinnedImgClone s)
    (isImgCloneActive s) (flipAnimation s) (lightColor s) (darkColor s)
    (scrollTriggers s) (backgroundColor s) (trackX s) (wrapperX s) (imgOpacity s)
    v (body s) (liveFlips s) (nextId s).
Definition set_body v s :=
  mkState (container s) (marqueeSection s) (marqueeTrack s) (pinnedMarqueeImg s)
    (horizontalSection s) (horizontalWrapper s) (pinnedImgClone s)
    (isImgCloneActive s) (flipAnimation s) (lightColor s) (darkColor s)
    (scrollTriggers s) (backgroundColor s) (trackX s) (wrapperX s) (imgOpacity s)
    (nodes s) v (liveFlips s) (nextId s).
Definition set_liveFlips v s :=
  mkState (container s) (marqueeSection s) (marqueeTrack s) (pinnedMarqueeImg s)
    (horizontalSection s) (horizontalWrapper s) (pinnedImgClone s)
    (isImgCloneActive s) (flipAnimation s) (lightColor s) (darkColor s)
    (scrollTriggers s) (backgroundColor s) (trackX s) (wrapperX s) (imgOpacity s)
    (nodes s) (body s) v (nextId s).
Definition set_nextId v s :=
  mkState (container s) (marqueeSection s) (marqueeTrack s) (pinnedMarqueeImg s)
    (horizontalSection s) (horizontalWrapper s) (pinnedImgClone s)
    (isImgCloneActive s) (flipAnimation s) (lightColor s) (darkColor s)
    (scrollTriggers s) (backgroundColor s) (trackX s) (wrapperX s) (imgOpacity s)
    (nodes s) (body s) (liveFlips s) v.

(** *** Construction: the field initialisers, then [init] *)

(** [setupElements]: the pinned image is looked up only when both sections
    exist. [setupColors] stores the two custom properties. *)
Definition setupElements (d : Document) (light dark : Color) : State :=
  let marquee := querySelector (doc_marquee d) Marquee in
  let horizontal := querySelector (doc_horizontal d) Horizontal in
  {| container := querySelector (doc_app d) App;
     marqueeSection := marquee;
     marqueeTrack := querySelector (doc_marqueeTrack d) MarqueeTrack;
     pinnedMarqueeImg :=
       if negb (truthy marquee) || negb (truthy horizontal) then None
       else if doc_pinItem d then querySelector (doc_pinItemImg d) PinnedImg
       else None;
     horizontalSection := horizontal;
     horizontalWrapper := querySelector (doc_horizontalWrapper d) HorizontalWrapper;
     pinnedImgClone := None;
     isImgCloneActive := false;
     flipAnimation := None;
     lightColor := light;
     darkColor := dark;
     scrollTriggers := [];
     backgroundColor := None;
     trackX := None;
     wrapperX := None;
     imgOpacity := None;
     nodes := ∅;
     body := [];
     liveFlips := [];
     nextId := O |}.

Definition push (t : Trigger) (s : State) : State :=
  set_scrollTriggers (scrollTriggers s ++ [t]) s.

Definition createMarqueeAnimation (s : State) : State :=
  if negb (truthy (marqueeTrack s)) then s else push MarqueeTrigger s.

Definition createHorizontalPinAnimation (s : State) : State :=
  if negb (truthy (horizontalSection s)) then s else push PinTrigger s.

Definition createCloneManagementTriggers (s : State) : State :=
  if negb (truthy (marqueeSection s)) || negb (truthy (pinnedMarqueeImg s))
  then s
  else push FlipTrigger (push CloneTrigger s).

Definition createMainScrollAnimation (s : State) : State :=
  if negb (truthy (horizontalSection s)) then s else push MainTrigger s.

Definition construct (d : Document) (light dark : Color) : State :=
  createMainScrollAnimation
    (createCloneManagementTriggers
       (createHorizontalPinAnimation
          (createMarqueeAnimation (setupElements d light dark)))).

(** *** The marquee trigger's [onUpdate] *)

Definition marqueeUpdate (progress : Q) (s : State) : State :=
  let xPosition := -75 + progress * 25 in
  if truthy (marqueeTrack s) then set_trackX (Some xPosition) s else s.

(** *** Clone life cycle *)

Definition createPinnedImgClone (s : State) : completion State :=
  if isImgCloneActive s || negb (truthy (pinnedMarqueeImg s)) then Normal s
  else
    do _ <- deref (pinnedMarqueeImg s) ;  (* getBoundingClientRect, cloneNode *)
    let id := nextId s in
    let s := set_nextId (S id) s in
    let s := set_pinnedImgClone (Some id) s in
    let s := set_nodes (<[id := {| node_layout := OverImage; node_x := None |}]> (nodes s)) s in
    let s := set_body (body s ++ [id]) s in
    let s := set_imgOpacity (Some 0) s in
    Normal (set_isImgCloneActive true s).

Definition removePinnedImgClone (s : State) : completion State :=
  if negb (isImgCloneActive s) then Normal s
  else
    do s <- (if truthy (pinnedImgClone s) then
            do id <- deref (pinnedImgClone s) ;   (* this.pinnedImgClone.remove() *)
            Normal (set_pinnedImgClone None
                      (set_body (filter (fun n => n <> id) (body s)) s))
          else Normal s) ;
    let s := if truthy (pinnedMarqueeImg s) then set_imgOpacity (Some 1) s else s in
    Normal (set_isImgCloneActive false s).

(** *** The FLIP animation *)

Definition initializeFlipAnimation (s : State) : State :=
  if negb (truthy (pinnedImgClone s)) || negb (isImgCloneActive s)
     || truthy (flipAnimation s)
  then s
  else
    match pinnedImgClone s with
    | None => s
    | Some id =>
        let s := set_nodes (alter (set_layout Fullscreen) id (nodes s)) s in
        let fid := nextId s in
        let s := set_nextId (S fid) s in
        let s := set_liveFlips (liveFlips s ++ [fid]) s in
        set_flipAnimation
          (Some {| flip_id := fid; flip_target := id; flip_progress := 0 |}) s
    end.

Definition killFlip (f : Flip) (s : State) : State :=
  set_liveFlips (filter (fun n => n <> flip_id f) (liveFlips s)) s.

Definition resetFlipAnimation (s : State) : completion State :=
  do s <- (if truthy (flipAnimation s) then
          do f <- deref (flipAnimation s) ;       (* this.flipAnimation.kill() *)
          Normal (set_flipAnimation None (killFlip f s))
        else Normal s) ;
  let s := if truthy (container s)
           then set_backgroundColor (Some (lightColor s)) s else s in
  let s := if truthy (horizontalWrapper s) then set_wrapperX (Some 0) s else s in
  Normal s.

(** *** The phase dispatcher *)

Definition updateBackgroundColor (progress : Q) (s : State) : State :=
  if negb (truthy (container s)) then s
  else if leb progress 0.05 then
    let bgColorProgress := Qmin (progress / 0.05) 1 in
    set_backgroundColor
      (Some (interpolate (lightColor s) (darkColor s) bgColorProgress)) s
  else set_backgroundColor (Some (darkColor s)) s.

Definition updateFlipAnimation (progress : Q) (s : State) : State :=
  match flipAnimation s with
  | None => s
  | Some f =>
      if leb progress 0.2 then
        let scaleProgress := progress / 0.2 in
        set_flipAnimation (Some (set_progress scaleProgress f)) s
      else set_flipAnimation (Some (set_progress 1 f)) s
  end.

Definition updateHorizontalScroll (progress : Q) (s : State) : State :=
  if gtb progress 0.2 && leb progress 0.95 then
    let horizontalProgress := (progress - 0.2) / 0.75 in
    let s :=
      if truthy (horizontalWrapper s) then
        let wrapperTranslateX := -66.67 * horizontalProgress in
        set_wrapperX (Some wrapperTranslateX) s
      else s in
    match pinnedImgClone s with
    | Some id =>
        let slideMovement := (66.67 / 100) * 3 * horizontalProgress in
        let imageTranslateX := - slideMovement * 100 in
        set_nodes (alter (set_x imageTranslateX) id (nodes s)) s
    | None => s
    end
  else if gtb progress 0.95 then
    let s :=
      match pinnedImgClone s with
      | Some id => set_nodes (alter (set_x (-200)) id (nodes s)) s
      | None => s
      end in
    if truthy (horizontalWrapper s) then set_wrapperX (Some (-66.67)) s else s
  else s.

Definition handleMainScrollUpdate (progress : Q) (s : State) : State :=
  updateHorizontalScroll progress
    (updateFlipAnimation progress (updateBackgroundColor progress s)).

(** *** [destroy] *)

Definition destroy (s : State) : completion State :=
  let s := set_scrollTriggers [] s in     (* every trigger killed *)
  do s <- (if truthy (flipAnimation s) then
          do f <- deref (flipAnimation s) ;
          Normal (set_flipAnimation None (killFlip f s))
        else Normal s) ;
  do s <- removePinnedImgClone s ;
  let s := if truthy (container s) then set_backgroundColor None s else s in
  let s := if truthy (marqueeTrack s) then set_trackX None s else s in
  let s := if truthy (horizontalWrapper s) then set_wrapperX None s else s in
  Normal s.

(** *** Running the controller *)

Definition fire (e : Event) (s : State) : completion State :=
  match e with
  | CloneEnter | CloneEnterBack => createPinnedImgClone s
  | CloneLeaveBack => removePinnedImgClone s
  | FlipEnter => Normal (initializeFlipAnimation s)
  | FlipLeaveBack => resetFlipAnimation s
  | MarqueeUpdate p => Normal (marqueeUpdate p s)
  | MainUpdate p => Normal (handleMainScrollUpdate p s)
  | Destroy => destroy s
  end.

Definition run (es : list Event) (s : State) : completion State :=
  forEach fire es s.

(** The dispatcher fed a sequence of progress values, first to last. *)
Definition feed (ps : list Q) (s : State) : State :=
  fold_left (fun s p => handleMainScrollUpdate p s) ps s.

(** What the dispatcher draws: container background, scrub position of the
    FLIP, translation of the wrapper and of the clone. *)
Record Visual : Type := {
  vis_background : option Color;
  vis_scrub : option Q;
  vis_wrapperX : option Q;
  vis_cloneX : option Q
}.

Definition cloneX (s : State) : option Q :=
  match pinnedImgClone s with
  | Some id =>
      match nodes s !! id with
      | Some n => node_x n
      | None => None
      end
  | None => None
  end.

Definition visual (s : State) : Visual :=
  {| vis_background := backgroundColor s;
     vis_scrub := option_map flip_progress (flipAnimation s);
     vis_wrapperX := wrapperX s;
     vis_cloneX := cloneX s |}.

(** The translation a wrapper shows: [0] when no inline value is set. *)
Definition shownX (x : option Q) : Q :=
  match x with
  | Some v => v
  | None => 0
  end.

(** *** The life-cycle invariant *)

(** The reference to the clone, the [isImgCloneActive] flag and the clones in
    the document agree, and so do [flipAnimation] and the engine's live Flip
    animations. *)
Definition consistent (s : State) : Prop :=
  match pinnedImgClone s with
  | Some id => isImgCloneActive s = true /\ body s = [id]
  | None => isImgCloneActive s = false /\ body s = []
  end
  /\ liveFlips s = match flipAnimation s with
                   | Some f => [flip_id f]
                   | None => []
                   end.

(** The fields [consistent] reads. *)
Definition skeleton (s : State) :=
  (pinnedImgClone s, isImgCloneActive s, body s, liveFlips s,
   option_map flip_id (flipAnimation s)).

End Engine.

Arguments State Color : clear implicits.
Arguments Visual Color : clear implicits.

End ComplexHorizontal.

(** ** HorizontalScroll.js *)

Module HorizontalScroll.
Import JS.
Local Open Scope Q_scope.

(** A [.slide] element: whether it holds a [.title h1] and an [img]. *)
Record Slide : Type := { slide_id : nat; slide_title : bool; slide_img : bool }.

Record Document : Type := {
  doc_sticky : bool;            (* .--sticky *)
  doc_slidesContainer : bool;   (* .slides *)
  doc_slider : bool;            (* .slider *)
  doc_slides : list Slide;      (* .slide, in document order *)
  innerHeight : Q;
  containerWidth : Q;           (* slidesContainer.offsetWidth *)
  sliderWidth : Q               (* slider.offsetWidth *)
}.

Inductive Element : Type := Sticky | SlidesContainer | Slider.

Definition querySelector (found : bool) (e : Element) : option Element :=
  if found then Some e else None.

(** A title tween of [animateTitles]: slide position and target [y]. *)
Record Tween : Type := { tw_index : nat; tw_y : Q }.

Record Handle : Type := { killed : bool }.

Record State : Type := mkState {
  stickySection : option Element;
  slidesContainer : option Element;
  slider : option Element;
  slides : list Slide;
  stickyHeight : Q;
  totalMove : Q;
  slideWidth : Q;
  currentVisibleIndex : option Z;
  scrollTrigger : option Handle;
  observer : option Handle;       (* [killed] is "disconnected" *)
  titleAnimations : list Tween;
  titleY : gmap nat Q;            (* inline y of the titles, by position *)
  containerX : option Q
}.

Definition set_currentVisibleIndex v s :=
  mkState (stickySection s) (slidesContainer s) (slider s) (slides s)
    (stickyHeight s) (totalMove s) (slideWidth s) v (scrollTrigger s)
    (observer s) (titleAnimations s) (titleY s) (containerX s).
Definition set_scrollTrigger v s :=
  mkState (stickySection s) (slidesContainer s) (slider s) (slides s)
    (stickyHeight s) (totalMove s) (slideWidth s) (currentVisibleIndex s) v
    (observer s) (titleAnimations s) (titleY s) (containerX s).
Definition set_observer v s :=
  mkState (stickySection s) (slidesContainer s) (slider s) (slides s)
    (stickyHeight s) (totalMove s) (slideWidth s) (currentVisibleIndex s)
    (scrollTrigger s) v (titleAnimations s) (titleY s) (containerX s).
Definition set_titleAnimations v s :=
  mkState (stickySection s) (slidesContainer s) (slider s) (slides s)
    (stickyHeight s) (totalMove s) (slideWidth s) (currentVisibleIndex s)
    (scrollTrigger s) (observer s) v (titleY s) (containerX s).
Definition set_titleY v s :=
  mkState (stickySection s) (slidesContainer s) (slider s) (slides s)
    (stickyHeight s) (totalMove s) (slideWidth s) (currentVisibleIndex s)
    (scrollTrigger s) (observer s) (titleAnimations s) v (containerX s).
Definition set_containerX v s :=
  mkState (stickySection s) (slidesContainer s) (slider s) (slides s)
    (stickyHeight s) (totalMove s) (slideWidth s) (currentVisibleIndex s)
    (scrollTrigger s) (observer s) (titleAnimations s) (titleY s) v.
Definition set_dimensions h m w s :=
  mkState (stickySection s) (slidesContainer s) (slider s) (slides s)
    h m w (currentVisibleIndex s)
    (scrollTrigger s) (observer s) (titleAnimations s) (titleY s) (containerX s).

(** *** Construction *)

Definition setupElements (d : Document) : State :=
  let sticky := querySelector (doc_sticky d) Sticky in
  let container := querySelector (doc_slidesContainer d) SlidesContainer in
  let slider := querySelector (doc_slider d) Slider in
  {| stickySection := sticky;
     slidesContainer := container;
     slider := slider;
     slides :=
       if negb (truthy sticky) || negb (truthy container) || negb (truthy slider)
       then [] else doc_slides d;
     stickyHeight := 0;
     totalMove := 0;
     slideWidth := 0;
     currentVisibleIndex := None;
     scrollTrigger := None;
     observer := None;
     titleAnimations := [];
     titleY := ∅;
     containerX := None |}.

(** [this.slidesContainer.offsetWidth] and [this.slider.offsetWidth] are
    member accesses. *)
Definition setupDimensions (d : Document) (s : State) : completion State :=
  if negb (truthy (slider s)) || negb (truthy (slidesContainer s)) then Normal s
  else
    do _ <- deref (slidesContainer s) ;
    do _ <- deref (slider s) ;
    Normal (set_dimensions (innerHeight d * 6)
              (containerWidth d - sliderWidth d) (sliderWidth d) s).

(** [gsap.set(title, { y })] on the title of the slide at position [i]. *)
Definition setTitle (y : Q) (i : nat) (sl : Slide) (s : State) : State :=
  if slide_title sl then set_titleY (<[i := y]> (titleY s)) s else s.

Fixpoint eachSlide (f : nat -> Slide -> State -> State) (i : nat)
  (l : list Slide) (s : State) : State :=
  match l with
  | [] => s
  | sl :: l' => eachSlide f (S i) l' (f i sl s)
  end.

Definition setupInitialStates (s : State) : State :=
  if Nat.eqb (length (slides s)) 0 then s
  else eachSlide (setTitle (-200)) 0 (slides s) s.

Definition createIntersectionObserver (s : State) : State :=
  if negb (truthy (slider s)) || Nat.eqb (length (slides s)) 0 then s
  else set_observer (Some {| killed := false |}) s.

Definition createScrollAnimation (s : State) : State :=
  if negb (truthy (stickySection s)) || negb (truthy (slidesContainer s))
     || Nat.eqb (length (slides s)) 0
  then s
  else set_scrollTrigger (Some {| killed := false |}) s.

Definition construct (d : Document) : completion State :=
  do s <- setupDimensions d (setupElements d) ;
  Normal (createScrollAnimation
            (createIntersectionObserver (setupInitialStates s))).

(** *** The visibility state machine *)

Record Entry : Type := { target : nat; intersectionRatio : Q }.

(** [this.slides.indexOf(entry.target)]: [-1] when absent. *)
Fixpoint indexOf (t : nat) (l : list Slide) (i : Z) : Z :=
  match l with
  | [] => (-1)%Z
  | sl :: l' => if Nat.eqb (slide_id sl) t then i else indexOf t l' (i + 1)%Z
  end.

(** [this.currentVisibleIndex === currentIndex]. *)
Definition strictEq (v : option Z) (i : Z) : bool :=
  match v with
  | Some j => Z.eqb j i
  | None => false
  end.

(** One title of [animateTitles]: a tween to [0] for the active position,
    to [-200] for the others, pushed on [titleAnimations]. *)
Definition animateTitle (activeIndex : Z) (i : nat) (sl : Slide) (s : State)
  : State :=
  if negb (slide_title sl) then s
  else
    let y := if Z.eqb (Z.of_nat i) activeIndex then 0 else -200 in
    let s := set_titleY (<[i := y]> (titleY s)) s in
    set_titleAnimations (titleAnimations s ++ [{| tw_index := i; tw_y := y |}]) s.

Definition animateTitles (activeIndex : Z) (s : State) : State :=
  eachSlide (animateTitle activeIndex) 0 (slides s) s.

Definition handleEntry (entry : Entry) (s : State) : State :=
  let currentIndex := indexOf (target entry) (slides s) 0 in
  if leb 0.25 (intersectionRatio entry) then
    animateTitles currentIndex (set_currentVisibleIndex (Some currentIndex) s)
  else if gtb 0.25 (intersectionRatio entry)
          && strictEq (currentVisibleIndex s) currentIndex then
    let prevIndex := (currentIndex - 1)%Z in
    animateTitles prevIndex
      (set_currentVisibleIndex
         (if Z.leb 0 prevIndex then Some prevIndex else None) s)
  else s.

Definition handleIntersection (entries : list Entry) (s : State) : State :=
  fold_left (fun s e => handleEntry e s) entries s.

(** *** [destroy] *)

Definition kill (h : Handle) : Handle := {| killed := true |}.

Definition destroy (s : State) : completion State :=
  do s <- (if truthy (scrollTrigger s) then
             do h <- deref (scrollTrigger s) ;
             Normal (set_scrollTrigger (Some (kill h)) s)
           else Normal s) ;
  do s <- (if truthy (observer s) then
             do h <- deref (observer s) ;
             Normal (set_observer (Some (kill h)) s)
           else Normal s) ;
  let s := set_titleAnimations [] s in
  let s := if truthy (slidesContainer s) then set_containerX None s else s in
  Normal (set_titleY ∅ s).

End HorizontalScroll.

(** ** LenisScroll.js *)

Module LenisScroll.
Import JS.

Record Lenis : Type := { scrollListeners : nat; destroyed : bool }.

Record State : Type := {
  lenis : option Lenis;
  tickerCallbacks : nat;     (* callbacks added to gsap.ticker *)
  lagSmoothing : bool
}.

Definition setupLenis : State :=
  {| lenis := Some {| scrollListeners := 0; destroyed := false |};
     tickerCallbacks := 0;
     lagSmoothing := true |}.

(** [this.lenis.on("scroll", ScrollTrigger.update)]. *)
Definition bindScrollTrigger (s : State) : completion State :=
  do l <- deref (lenis s) ;
  Normal {| lenis := Some {| scrollListeners := S (scrollListeners l);
                             destroyed := destroyed l |};
            tickerCallbacks := tickerCallbacks s;
            lagSmoothing := lagSmoothing s |}.

Definition startAnimation (s : State) : State :=
  {| lenis := lenis s;
     tickerCallbacks := S (tickerCallbacks s);
     lagSmoothing := false |}.

Definition construct : completion State :=
  do s <- bindScrollTrigger setupLenis ;
  Normal (startAnimation s).

Definition destroy (s : State) : completion State :=
  if truthy (lenis s) then
    do l <- deref (lenis s) ;
    Normal {| lenis := Some {| scrollListeners := scrollListeners l;
                               destroyed := true |};
              tickerCallbacks := tickerCallbacks s;
              lagSmoothing := lagSmoothing s |}
  else Normal s.

End LenisScroll.

(** ** The MeduzaHorizontal class (beat pulse and card music) *)

(** The class as its later revision has it: toggles with a change listener,
    [play()] promises, and the beat pulse. *)

Module MeduzaHorizontal.
Import JS.
Local Open Scope Q_scope.

Inductive Element : Type := App | PinSection.

Definition querySelector (found : bool) (e : Element) : option Element :=
  if found then Some e else None.

(** A [.cards] element: whether it holds an [audio] and a [.play-btn]. *)
Record CardElement : Type := { has_audio : bool; has_toggle : bool }.

Record Document : Type := {
  doc_app : bool;                  (* #app *)
  doc_pinSection : bool;           (* .sticky-wrapper-meduza *)
  doc_cards : list CardElement     (* .cards, in document order *)
}.

Record CardConfig : Type := { card_no : nat; endTranslateX : Q; rotate : Q }.

Definition cards : list CardConfig :=
  [ {| card_no := 1; endTranslateX := -2000; rotate := 45 |};
    {| card_no := 2; endTranslateX := -1000; rotate := 30 |};
    {| card_no := 3; endTranslateX := -2000; rotate := 45 |};
    {| card_no := 4; endTranslateX := -1400; rotate := -30 |};
    {| card_no := 5; endTranslateX := -1400; rotate := 60 |};
    {| card_no := 6; endTranslateX := -1400; rotate := -45 |};
    {| card_no := 7; endTranslateX := -1400; rotate := 25 |} ].

Record Audio : Type := { paused : bool; currentTime : Q }.

Inductive Target : Type := BlurOverlay | ColorPulse | CardSet.

(** A [gsap.to] tween: [tw_loop] is [yoyo: true, repeat: -1]. *)
Record Tween : Type := {
  tw_id : nat;
  tw_target : Target;
  tw_loop : bool;
  tw_duration : Q
}.

(** Audio elements and toggles are keyed by the position of their card.
    [currentAudio] is the variable the listeners of [initCardMusic] close
    over; [pending] holds the [play()] promises not settled yet; [tweens]
    is the engine's set of live tweens. *)
Record State : Type := mkState {
  container : option Element;
  pinSection : option Element;
  beatTween : option Tween;
  beatColorTween : option Tween;
  cardsBeatTween : option Tween;
  currentAudio : option nat;
  audios : gmap nat Audio;
  toggles : gmap nat bool;
  listeners : list nat;
  pending : list nat;
  tweens : list Tween;
  nextId : nat
}.

Definition set_beatTween v s :=
  mkState (container s) (pinSection s) v (beatColorTween s) (cardsBeatTween s)
    (currentAudio s) (audios s) (toggles s) (listeners s) (pending s)
    (tweens s) (nextId s).
Definition set_beatColorTween v s :=
  mkState (container s) (pinSection s) (beatTween s) v (cardsBeatTween s)
    (currentAudio s) (audios s) (toggles s) (listeners s) (pending s)
    (tweens s) (nextId s).
Definition set_cardsBeatTween v s :=
  mkState (container s) (pinSection s) (beatTween s) (beatColorTween s) v
    (currentAudio s) (audios s) (toggles s) (listeners s) (pending s)
    (tweens s) (nextId s).
Definition set_currentAudio v s :=
  mkState (container s) (pinSection s) (beatTween s) (beatColorTween s)
    (cardsBeatTween s) v (audios s) (toggles s) (listeners s) (pending s)
    (tweens s) (nextId s).
Definition set_audios v s :=
  mkState (container s) (pinSection s) (beatTween s) (beatColorTween s)
    (cardsBeatTween s) (currentAudio s) v (toggles s) (listeners s) (pending s)
    (tweens s) (nextId s).
Definition set_toggles v s :=
  mkState (container s) (pinSection s) (beatTween s) (beatColorTween s)
    (cardsBeatTween s) (currentAudio s) (audios s) v (listeners s) (pending s)
    (tweens s) (nextId s).
Definition set_listeners v s :=
  mkState (container s) (pinSection s) (beatTween s) (beatColorTween s)
    (cardsBeatTween s) (currentAudio s) (audios s) (toggles s) v (pending s)
    (tweens s) (nextId s).
Definition set_pending v s :=
  mkState (container s) (pinSection s) (beatTween s) (beatColorTween s)
    (cardsBeatTween s) (currentAudio s) (audios s) (toggles s) (listeners s) v
    (tweens s) (nextId s).
Definition set_tweens v s :=
  mkState (container s) (pinSection s) (beatTween s) (beatColorTween s)
    (cardsBeatTween s) (currentAudio s) (audios s) (toggles s) (listeners s)
    (pending s) v (nextId s).
Definition set_nextId v s :=
  mkState (container s) (pinSection s) (beatTween s) (beatColorTween s)
    (cardsBeatTween s) (currentAudio s) (audios s) (toggles s) (listeners s)
    (pending s) (tweens s) v.

(** *** Construction *)

(** [initCardMusic] walks the cards: a card lacking its audio or its toggle
    gets no listener. *)
Fixpoint scanCards (i : nat) (l : list CardElement) (s : State) : State :=
  match l with
  | [] => s
  | c :: l' =>
      let s :=
        if has_audio c
        then set_audios (<[i := {| paused := true; currentTime := 0 |}]> (audios s)) s
        else s in
      let s := if has_toggle c then set_toggles (<[i := false]> (toggles s)) s else s in
      let s :=
        if negb (has_audio c) || negb (has_toggle c) then s
        else set_listeners (listeners s ++ [i]) s in
      scanCards (S i) l' s
  end.

Definition construct (d : Document) : State :=
  scanCards 0 (doc_cards d)
    {| container := querySelector (doc_app d) App;
       pinSection := querySelector (doc_pinSection d) PinSection;
       beatTween := None;
       beatColorTween := None;
       cardsBeatTween := None;
       currentAudio := None;
       audios := ∅;
       toggles := ∅;
       listeners := [];
       pending := [];
       tweens := [];
       nextId := O |}.

(** *** The beat pulse *)

Definition newTween (t : Target) (loop : bool) (duration : Q) (s : State)
  : Tween * State :=
  let tw := {| tw_id := nextId s; tw_target := t; tw_loop := loop;
               tw_duration := duration |} in
  (tw, set_tweens (tweens s ++ [tw]) (set_nextId (S (nextId s)) s)).

Definition startBeatPulse (bpm : Q) (s : State) : State :=
  if truthy (beatTween s) || truthy (beatColorTween s)
     || truthy (cardsBeatTween s)
  then s
  else
    let intervalMs := (60000 / bpm) / 2 in
    let '(t1, s) := newTween BlurOverlay true (intervalMs / 1000) s in
    let s := set_beatTween (Some t1) s in
    let '(t2, s) := newTween ColorPulse true (intervalMs / 1000) s in
    let s := set_beatColorTween (Some t2) s in
    let '(t3, s) := newTween CardSet true (intervalMs / 1000) s in
    set_cardsBeatTween (Some t3) s.

(** [tween.kill()]: the tween leaves the engine. *)
Definition killTween (t : Tween) (s : State) : State :=
  set_tweens (filter (fun u => tw_id u <> tw_id t) (tweens s)) s.

Definition stopBeatPulse (s : State) : completion State :=
  do s <- (if truthy (beatTween s) then
             do t <- deref (beatTween s) ;
             Normal (set_beatTween None (killTween t s))
           else Normal s) ;
  do s <- (if truthy (beatColorTween s) then
             do t <- deref (beatColorTween s) ;
             Normal (set_beatColorTween None (killTween t s))
           else Normal s) ;
  do s <- (if truthy (cardsBeatTween s) then
             do t <- deref (cardsBeatTween s) ;
             Normal (set_cardsBeatTween None (killTween t s))
           else Normal s) ;
  let s := snd (newTween BlurOverlay false 0.4 s) in
  let s := snd (newTween ColorPulse false 0.4 s) in
  Normal (snd (newTween CardSet false 0.3 s)).

(** *** The listeners of [initCardMusic] *)

Definition checked (i : nat) (s : State) : bool :=
  match toggles s !! i with
  | Some b => b
  | None => false
  end.

Definition pause (i : nat) (s : State) : State :=
  set_audios
    (alter (fun a => {| paused := true; currentTime := currentTime a |}) i
       (audios s)) s.

Definition rewind (i : nat) (s : State) : State :=
  set_audios
    (alter (fun a => {| paused := paused a; currentTime := 0 |}) i (audios s)) s.

(** [audio.play()]: the element starts, and the promise is pending. *)
Definition play (i : nat) (s : State) : State :=
  set_pending (pending s ++ [i])
    (set_audios
       (alter (fun a => {| paused := false; currentTime := currentTime a |}) i
          (audios s)) s).

(** [querySelectorAll(".play-btn").forEach(btn => { if (btn !== toggle)
    btn.checked = false })]. *)
Definition uncheckOthers (i : nat) (s : State) : State :=
  set_toggles
    (map_imap (fun k v => Some (if Nat.eqb k i then v else false)) (toggles s)) s.

Definition setChecked (i : nat) (b : bool) (s : State) : State :=
  set_toggles (alter (fun _ => b) i (toggles s)) s.

(** [currentAudio && currentAudio !== audio], for the audio of card [i]. *)
Definition isOtherCurrent (i : nat) (s : State) : bool :=
  match currentAudio s with
  | Some c => negb (Nat.eqb c i)
  | None => false
  end.

(** The first statement of the change listener. *)
Definition stopPrevious (i : nat) (s : State) : completion State :=
  if isOtherCurrent i s then
    do c <- deref (currentAudio s) ;
    Normal (uncheckOthers i (rewind c (pause c s)))
  else Normal s.

(** The second statement of the change listener. *)
Definition playOrPause (i : nat) (s : State) : completion State :=
  if checked i s then Normal (play i s)
  else stopBeatPulse (pause i s).

Definition onChange (i : nat) (s : State) : completion State :=
  do s <- stopPrevious i s ;
  playOrPause i s.

(** The [then] callback of [audio.play()]. *)
Definition onPlayResolved (i : nat) (s : State) : State :=
  startBeatPulse 124 (set_currentAudio (Some i) s).

(** The [catch] callback of [audio.play()]. *)
Definition onPlayRejected (i : nat) (s : State) : State :=
  setChecked i false s.

Definition onEnded (i : nat) (s : State) : completion State :=
  stopBeatPulse (setChecked i false s).

(** What happens to the page: the user flips the toggle of card [i] (the
    change listener then runs), a pending [play()] of card [i] settles, or
    the audio of card [i] reaches its end. *)
Inductive Event : Type :=
| Toggle (i : nat)
| PlayResolved (i : nat)
| PlayRejected (i : nat)
| Ended (i : nat).

Definition hasListener (i : nat) (s : State) : bool :=
  existsb (Nat.eqb i) (listeners s).

Fixpoint removeFirst (i : nat) (l : list nat) : list nat :=
  match l with
  | [] => []
  | j :: l' => if Nat.eqb i j then l' else j :: removeFirst i l'
  end.

Definition fire (e : Event) (s : State) : completion State :=
  match e with
  | Toggle i =>
      let s := set_toggles (alter negb i (toggles s)) s in
      if hasListener i s then onChange i s else Normal s
  | PlayResolved i =>
      if existsb (Nat.eqb i) (pending s)
      then Normal (onPlayResolved i (set_pending (removeFirst i (pending s)) s))
      else Normal s
  | PlayRejected i =>
      (* a rejected play() leaves the element paused *)
      if existsb (Nat.eqb i) (pending s)
      then Normal (onPlayRejected i
                     (pause i (set_pending (removeFirst i (pending s)) s)))
      else Normal s
  | Ended i =>
      if hasListener i s then onEnded i s else Normal s
  end.

Definition run (es : list Event) (s : State) : completion State :=
  forEach fire es s.

(** How a [play()] promise settles. *)
Inductive Outcome : Type := Resolves | Rejects.

Definition settle (i : nat) (o : Outcome) (s : State) : completion State :=
  match o with
  | Resolves => fire (PlayResolved i) s
  | Rejects => fire (PlayRejected i) s
  end.

(** Events of a run in which the [play()] a change listener calls settles
    before the next event arrives. *)
Inductive SettledEvent : Type :=
| ToggleThen (i : nat) (o : Outcome)
| EndedThen (i : nat).

Definition fireSettled (e : SettledEvent) (s : State) : completion State :=
  match e with
  | ToggleThen i o => do s <- fire (Toggle i) s ; settle i o s
  | EndedThen i => fire (Ended i) s
  end.

Definition runSettled (es : list SettledEvent) (s : State) : completion State :=
  forEach fireSettled es s.

(** The audio of card [j] exists and is not paused. *)
Definition playing (j : nat) (s : State) : bool :=
  match audios s !! j with
  | Some a => negb (paused a)
  | None => false
  end.

(** No [play()] is pending, and only the current audio plays. *)
Definition exclusive (s : State) : Prop :=
  pending s = [] /\ forall j, playing j s = true -> currentAudio s = Some j.

(** The playback position of the audio of card [j]. *)
Definition timeOf (s : State) (j : nat) : option Q :=
  currentTime <$> audios s !! j.

(** Playback carries the position of the audio of card [i] to [t] (the
    browser does this, no listener does). *)
Definition advance (i : nat) (t : Q) (s : State) : State :=
  set_audios
    (alter (fun a => {| paused := paused a; currentTime := t |}) i (audios s)) s.

(** *** Scroll triggers *)

(** [onUpdate] of a card's trigger: target [x] in px and rotation in deg. *)
Definition cardUpdate (c : CardConfig) (progress : Q) : Q * Q :=
  (endTranslateX c * progress, rotate c * progress).

(** [onUpdate] of the pin trigger: target [x] in vw. *)
Definition pinUpdate (progress : Q) : Q := -350 * progress.

End MeduzaHorizontal.

(** ** main.js: the root application object *)

Module App.
Import JS.

Section Page.

Context {Color : Type}.

Inductive Controller : Type :=
| Lenis (s : LenisScroll.State)
| Horizontal (s : HorizontalScroll.State)
| Complex (s : ComplexHorizontal.State Color)
| Meduza (s : MeduzaHorizontal.State).

(** A class and the document its constructor reads. *)
Inductive Class : Type :=
| LenisScrollClass
| HorizontalScrollClass (d : HorizontalScroll.Document)
| ComplexHorizontalClass (d : ComplexHorizontal.Document) (light dark : Color)
| MeduzaHorizontalClass (d : MeduzaHorizontal.Document).

(** [new C()]. *)
Definition new (c : Class) : completion Controller :=
  match c with
  | LenisScrollClass =>
      do s <- LenisScroll.construct ; Normal (Lenis s)
  | HorizontalScrollClass d =>
      do s <- HorizontalScroll.construct d ; Normal (Horizontal s)
  | ComplexHorizontalClass d light dark =>
      Normal (Complex (ComplexHorizontal.construct d light dark))
  | MeduzaHorizontalClass d =>
      Normal (Meduza (MeduzaHorizontal.construct d))
  end.

(** The [destroy] property of a controller: the method of its class, and
    [undefined] for MeduzaHorizontal, which defines none. *)
Definition destroyMethod (c : Controller) : option (completion Controller) :=
  match c with
  | Lenis s => Some (do s <- LenisScroll.destroy s ; Normal (Lenis s))
  | Horizontal s => Some (do s <- HorizontalScroll.destroy s ; Normal (Horizontal s))
  | Complex s => Some (do s <- ComplexHorizontal.destroy s ; Normal (Complex s))
  | Meduza _ => None
  end.

(** [c.destroy()]: calling [undefined] is a TypeError. *)
Definition callDestroy (c : Controller) : completion Controller :=
  do m <- deref (destroyMethod c) ; m.

(** The marker elements of the page and the documents the controllers read. *)
Record Page : Type := {
  has_home : bool;       (* .--home *)
  has_complex : bool;    (* .--complex *)
  has_meduza : bool;     (* .home-meduza *)
  home_doc : HorizontalScroll.Document;
  complex_doc : ComplexHorizontal.Document;
  css_light : Color;
  css_dark : Color;
  meduza_doc : MeduzaHorizontal.Document
}.

Record State : Type := {
  lenis : option Controller;
  animations : list Controller
}.

Definition initializeAnimations (pg : Page) : completion (list Controller) :=
  do a1 <- (if has_home pg then
              do c <- new (HorizontalScrollClass (home_doc pg)) ; Normal [c]
            else Normal []) ;
  do a2 <- (if has_complex pg then
              do c <- new (ComplexHorizontalClass (complex_doc pg)
                             (css_light pg) (css_dark pg)) ;
              Normal [c]
            else Normal []) ;
  do a3 <- (if has_meduza pg then
              do c <- new (MeduzaHorizontalClass (meduza_doc pg)) ; Normal [c]
            else Normal []) ;
  Normal (a1 ++ a2 ++ a3).

Definition setup (pg : Page) : completion State :=
  do l <- new LenisScrollClass ;
  do a <- initializeAnimations pg ;
  Normal {| lenis := Some l; animations := a |}.

(** [if (animation && typeof animation.destroy === "function")
    animation.destroy()]. *)
Definition destroyIfDefined (c : Controller) : completion Controller :=
  if truthy (destroyMethod c) then callDestroy c else Normal c.

Fixpoint destroyEach (l : list Controller) : completion (list Controller) :=
  match l with
  | [] => Normal []
  | c :: l' =>
      do c <- destroyIfDefined c ;
      do l' <- destroyEach l' ;
      Normal (c :: l')
  end.

Definition destroy (a : State) : completion State :=
  do anims <- destroyEach (animations a) ;
  do l <- (if truthy (lenis a) then
             do c <- deref (lenis a) ;
             do c <- callDestroy c ;
             Normal (Some c)
           else Normal (lenis a)) ;
  Normal {| lenis := l; animations := anims |}.

End Page.

Arguments Controller Color : clear implicits.
Arguments Class Color : clear implicits.
Arguments Page Color : clear implicits.
Arguments State Color : clear implicits.

End App.

(** ** The dispatcher's arithmetic on binary64 numbers *)

(** The numeric expressions of the dispatcher once more, on IEEE 754 doubles
    as JavaScript evaluates them, to compare with the rational model at the
    phase boundaries. *)
Module Binary64.

#[local] Set Warnings "-inexact-float".
Local Open Scope float_scope.

(** [Math.min] on two numbers, neither NaN. *)
Definition min (x y : float) : float := if PrimFloat.leb x y then x else y.

Definition bgColorProgress (progress : float) : float := min (progress / 0.05) 1.

Definition scaleProgress (progress : float) : float := progress / 0.2.

Definition horizontalProgress (progress : float) : float :=
  (progress - 0.2) / 0.75.

Definition wrapperTranslateX (progress : float) : float :=
  -66.67 * horizontalProgress progress.

(** The guard of the horizontal phase. *)
Definition inHorizontalPhase (progress : float) : bool :=
  PrimFloat.ltb 0.2 progress && PrimFloat.leb progress 0.95.

(** The values of the rational model at 0, 0.025, 0.05 (colour parameter),
    0.2 (scrub position) and 0.95 (wrapper translation). *)
Definition expected : list float := [0; 0.5; 1; 1; -66.67].

End Binary64.

(** ** Sample data *)

(** An instance of the engine's colour interpolation: three channels, each
    interpolated linearly over the canonical rationals. *)
Module Rgb.

Record Color : Type := { red : Qc; green : Qc; blue : Qc }.

Definition channel (a b : Qc) (t : Q) : Qc := (a + (b - a) * Q2Qc t)%Qc.

Definition interpolate (a b : Color) (t : Q) : Color :=
  {| red := channel (red a) (red b) t;
     green := channel (green a) (green b) t;
     blue := channel (blue a) (blue b) t |}.

Definition gray (v : Z) : Color :=
  {| red := Q2Qc (inject_Z v); green := Q2Qc (inject_Z v);
     blue := Q2Qc (inject_Z v) |}.

Definition light : Color := gray 240.
Definition dark : Color := gray 16.

End Rgb.

Module Sample.

(** A page that holds every element the Complex Scroller looks for. *)
Definition complexDocument : ComplexHorizontal.Document :=
  {| ComplexHorizontal.doc_app := true;
     ComplexHorizontal.doc_marquee := true;
     ComplexHorizontal.doc_marqueeTrack := true;
     ComplexHorizontal.doc_horizontal := true;
     ComplexHorizontal.doc_horizontalWrapper := true;
     ComplexHorizontal.doc_pinItem := true;
     ComplexHorizontal.doc_pinItemImg := true |}.

Definition complex0 : ComplexHorizontal.State Rgb.Color :=
  ComplexHorizontal.construct complexDocument Rgb.light Rgb.dark.

(** Scrolled into the marquee and the horizontal section: the clone exists
    and the FLIP is initialised. *)
Definition complexReady : ComplexHorizontal.State Rgb.Color :=
  match ComplexHorizontal.run Rgb.interpolate
          [ComplexHorizontal.CloneEnter; ComplexHorizontal.FlipEnter]
          complex0 with
  | JS.Normal s => s
  | JS.Throw _ => complex0
  end.

(** Three slides, each with a title and an image. *)
Definition homeDocument : HorizontalScroll.Document :=
  {| HorizontalScroll.doc_sticky := true;
     HorizontalScroll.doc_slidesContainer := true;
     HorizontalScroll.doc_slider := true;
     HorizontalScroll.doc_slides :=
       [ {| HorizontalScroll.slide_id := 10; HorizontalScroll.slide_title := true;
            HorizontalScroll.slide_img := true |};
         {| HorizontalScroll.slide_id := 11; HorizontalScroll.slide_title := true;
            HorizontalScroll.slide_img := true |};
         {| HorizontalScroll.slide_id := 12; HorizontalScroll.slide_title := true;
            HorizontalScroll.slide_img := true |} ];
     HorizontalScroll.innerHeight := 800;
     HorizontalScroll.containerWidth := 3600;
     HorizontalScroll.sliderWidth := 1200 |}.

(** Two cards, each with an audio element and a toggle. *)
Definition meduzaDocument : MeduzaHorizontal.Document :=
  {| MeduzaHorizontal.doc_app := true;
     MeduzaHorizontal.doc_pinSection := true;
     MeduzaHorizontal.doc_cards :=
       [ {| MeduzaHorizontal.has_audio := true; MeduzaHorizontal.has_toggle := true |};
         {| MeduzaHorizontal.has_audio := true; MeduzaHorizontal.has_toggle := true |} ] |}.

Definition meduza0 : MeduzaHorizontal.State :=
  MeduzaHorizontal.construct meduzaDocument.

(** The first card was toggled on, its [play()] resolved, and it has played
    for 12.5 seconds. *)
Definition meduzaPlaying : MeduzaHorizontal.State :=
  match MeduzaHorizontal.run
          [MeduzaHorizontal.Toggle 0; MeduzaHorizontal.PlayResolved 0]
          meduza0 with
  | JS.Normal s => MeduzaHorizontal.advance 0 12.5 s
  | JS.Throw _ => meduza0
  end.

(** The same page at the moment the user has checked the toggle of the
    second card, before its change listener runs. *)
Definition meduzaSwitching : MeduzaHorizontal.State :=
  MeduzaHorizontal.set_toggles
    (alter negb 1%nat (MeduzaHorizontal.toggles meduzaPlaying)) meduzaPlaying.

(** The home page once its second slide is a quarter visible. *)
Definition homeActive : HorizontalScroll.State :=
  match HorizontalScroll.construct homeDocument with
  | JS.Normal s =>
      HorizontalScroll.handleIntersection
        [ {| HorizontalScroll.target := 11;
             HorizontalScroll.intersectionRatio := 0.5 |} ] s
  | JS.Throw _ => HorizontalScroll.setupElements homeDocument
  end.

(** The second slide drops to a tenth visible. *)
Definition secondLeaves : HorizontalScroll.Entry :=
  {| HorizontalScroll.target := 11; HorizontalScroll.intersectionRatio := 0.1 |}.

End Sample.

(** * Theorems *)

(** ** Numbers *)

Module NumberFacts.
Import JS.
Local Open Scope Q_scope.

Lemma leb_true (x y : Q) : leb x y = true <-> x <= y.
Proof. apply Qle_bool_iff. Qed.

Lemma leb_false (x y : Q) : leb x y = false <-> y < x.
Proof.
  unfold leb. split.
  - intros H. apply Qnot_le_lt. intros L. apply Qle_bool_iff in L. congruence.
  - intros H. destruct (Qle_bool x y) eqn:E; [|reflexivity].
    apply Qle_bool_iff in E. exfalso. apply (Qlt_not_le _ _ H E).
Qed.

Lemma gtb_true (x y : Q) : gtb x y = true <-> y < x.
Proof. unfold gtb. rewrite negb_true_iff. apply leb_false. Qed.

Lemma gtb_false (x y : Q) : gtb x y = false <-> x <= y.
Proof. unfold gtb. rewrite negb_false_iff. apply leb_true. Qed.

(** Division by the two phase lengths, as multiplications [lra] can read. *)
Lemma div_075 (x : Q) : x / 0.75 == x * (4 # 3).
Proof. unfold Qdiv. apply Qmult_comp; reflexivity. Qed.

Lemma div_005 (x : Q) : x / 0.05 == x * 20.
Proof. unfold Qdiv. apply Qmult_comp; reflexivity. Qed.

End NumberFacts.

(** On doubles the boundary values are the ones of the rational model: the
    colour parameter is 0, 0.5 and 1 at 0, 0.025 and 0.05; the scrub position
    is 1 at 0.2; the wrapper is at -66.67 at 0.95, which is inside the
    horizontal phase, while 0.2 is outside it. *)
Module Binary64Facts.
Import Binary64.

#[local] Set Warnings "-inexact-float".

Example boundary_values :
  [ bgColorProgress 0; bgColorProgress 0.025; bgColorProgress 0.05;
    scaleProgress 0.2; wrapperTranslateX 0.95 ]%float = expected
  /\ inHorizontalPhase 0.95%float = true
  /\ inHorizontalPhase 0.2%float = false.
Proof. repeat split; reflexivity. Qed.

End Binary64Facts.

(** ** The sample colour interpolation meets the engine's contract *)

Module RgbFacts.
Import Rgb.
Local Open Scope Q_scope.

Lemma rgb_proper a b t t' : t == t' -> interpolate a b t = interpolate a b t'.
Proof.
  intros E. unfold interpolate, channel.
  assert (Q2Qc t = Q2Qc t') as ->
      by (apply Qc_is_canon; simpl; rewrite !Qred_correct; exact E).
  reflexivity.
Qed.

Lemma rgb_start a b : interpolate a b 0 = a.
Proof.
  destruct a as [r g bl]. unfold interpolate, channel. cbn [red green blue].
  f_equal; change (Q2Qc 0) with 0%Qc; ring.
Qed.

Lemma rgb_end a b : interpolate a b 1 = b.
Proof.
  destruct b as [r g bl]. unfold interpolate, channel. cbn [red green blue].
  f_equal; change (Q2Qc 1) with 1%Qc; ring.
Qed.

Lemma rgb_midway : interpolate light dark 0.5 = gray 128.
Proof.
  unfold interpolate, gray, channel. cbn.
  f_equal; apply Qc_is_canon; reflexivity.
Qed.

End RgbFacts.

(** ** The phase dispatcher of the Complex Scroller *)

Module Dispatcher.
Import JS ComplexHorizontal NumberFacts.
Local Open Scope Q_scope.

Lemma alter_set_x (v w : Q) (i : nat) (m : gmap nat Node) :
  alter (set_x v) i (alter (set_x w) i m) = alter (set_x v) i m.
Proof.
  apply map_eq. intros j. destruct (decide (i = j)) as [->|].
  - rewrite !lookup_alter_eq. destruct (m !! j); reflexivity.
  - rewrite !lookup_alter_ne by assumption. reflexivity.
Qed.

Ltac open_state s :=
  destruct s as [c ms mt img hs hw clone act flip lc dc trg bg tx wx op nd bd lf nx].

(** Case analysis on every comparison of the three phases. *)
Ltac phases :=
  unfold updateBackgroundColor, updateFlipAnimation, updateHorizontalScroll,
    gtb, leb;
  cbn;
  repeat match goal with
         | |- context [Qle_bool ?x ?y] => destruct (Qle_bool x y); cbn
         end;
  try reflexivity.

Section Phases.

Context {Color : Type} (interpolate : Color -> Color -> Q -> Color).

Abbreviation B := (updateBackgroundColor interpolate).
Abbreviation F := updateFlipAnimation.
Abbreviation H := updateHorizontalScroll.
Abbreviation handle := (handleMainScrollUpdate interpolate).

(** The phases write disjoint fields, so they commute ... *)
Lemma B_F p q (s : State Color) : B p (F q s) = F q (B p s).
Proof. open_state s. destruct c, flip; phases. Qed.

Lemma B_H p q (s : State Color) : B p (H q s) = H q (B p s).
Proof. open_state s. destruct c, hw, clone; phases. Qed.

Lemma F_H p q (s : State Color) : F p (H q s) = H q (F p s).
Proof. open_state s. destruct flip, hw, clone; phases. Qed.

(** ... and the first two overwrite what they wrote before. *)
Lemma B_B p q (s : State Color) : B p (B q s) = B p s.
Proof. open_state s. destruct c; phases. Qed.

Lemma F_F p q (s : State Color) : F p (F q s) = F p s.
Proof. open_state s. destruct flip; phases. Qed.

(** The horizontal phase overwrites only above 0.2. *)
Lemma H_H p q (s : State Color) : 0.2 < p -> H p (H q s) = H p s.
Proof.
  intros Hp. apply gtb_true in Hp. unfold gtb in Hp. open_state s.
  unfold updateHorizontalScroll, gtb, leb. rewrite Hp.
  destruct hw, clone; cbn;
    destruct (Qle_bool p 0.95), (Qle_bool q 0.2), (Qle_bool q 0.95);
    cbn; rewrite ?alter_set_x; reflexivity.
Qed.

Lemma H_background p (s : State Color) :
  backgroundColor (H p s) = backgroundColor s.
Proof. open_state s. destruct hw, clone; phases. Qed.

Lemma H_flipAnimation p (s : State Color) :
  flipAnimation (H p s) = flipAnimation s.
Proof. open_state s. destruct hw, clone; phases. Qed.

Lemma F_horizontalWrapper p (s : State Color) :
  horizontalWrapper (F p s) = horizontalWrapper s /\ wrapperX (F p s) = wrapperX s.
Proof. open_state s. destruct flip; phases; split; reflexivity. Qed.

Lemma B_horizontalWrapper p (s : State Color) :
  horizontalWrapper (B p s) = horizontalWrapper s /\ wrapperX (B p s) = wrapperX s.
Proof. open_state s. destruct c; phases; split; reflexivity. Qed.

Lemma F_background p (s : State Color) :
  backgroundColor (F p s) = backgroundColor s.
Proof. open_state s. destruct flip; phases. Qed.

Lemma handle_handle p q (s : State Color) :
  0.2 < p -> handle p (handle q s) = handle p s.
Proof.
  intros Hp. unfold handleMainScrollUpdate.
  rewrite B_H, F_H, B_F, F_F, B_B. apply H_H, Hp.
Qed.

Lemma feed_snoc qs p (s : State Color) :
  feed interpolate (qs ++ [p]) s = handle p (feed interpolate qs s).
Proof. unfold feed. rewrite fold_left_app. reflexivity. Qed.

Lemma handle_feed p qs : forall s : State Color,
  0.2 < p -> handle p (feed interpolate qs s) = handle p s.
Proof.
  induction qs as [|q qs IH]; intros s Hp; [reflexivity|].
  cbn. change (fold_left _ qs ?t) with (feed interpolate qs t).
  rewrite IH by exact Hp. apply handle_handle, Hp.
Qed.

(** The first two phases of an update, after earlier updates: the earlier
    horizontal phases are all that is left of the history. *)
Lemma early_phases_feed p qs : forall s : State Color,
  F p (B p (feed interpolate qs s)) =
  fold_right (fun q t => H q t) (F p (B p s)) (rev qs).
Proof.
  induction qs as [|q qs IH]; intros s; [reflexivity|].
  cbn. change (fold_left _ qs ?t) with (feed interpolate qs t).
  rewrite IH, fold_right_app. cbn. f_equal.
  unfold handleMainScrollUpdate. rewrite B_H, F_H, B_F, F_F, B_B. reflexivity.
Qed.

Lemma H_chain_frame qs (s : State Color) :
  backgroundColor (fold_right (fun q t => H q t) s qs) = backgroundColor s
  /\ flipAnimation (fold_right (fun q t => H q t) s qs) = flipAnimation s.
Proof.
  induction qs as [|q qs [IH1 IH2]]; [split; reflexivity|].
  cbn. rewrite H_background, H_flipAnimation. split; assumption.
Qed.

(** Up to 0.2 an update writes neither translation. *)
Lemma handle_below p (s : State Color) :
  p <= 0.2 ->
  wrapperX (handle p s) = wrapperX s /\ cloneX (handle p s) = cloneX s.
Proof.
  intros Hp. unfold handleMainScrollUpdate.
  assert (E : forall t : State Color, H p t = t).
  { intros t. unfold updateHorizontalScroll.
    assert (gtb p 0.2 = false) as -> by (apply gtb_false; exact Hp).
    assert (gtb p 0.95 = false) as -> by (apply gtb_false; lra).
    reflexivity. }
  rewrite E. open_state s. unfold cloneX. destruct c, flip; phases; split; reflexivity.
Qed.


Lemma handle_wrapperX (s : State Color) (p : Q) :
  horizontalWrapper s <> None ->
  wrapperX (handle p s) =
  if gtb p 0.2 && leb p 0.95 then Some (-66.67 * ((p - 0.2) / 0.75))
  else if gtb p 0.95 then Some (-66.67)
  else wrapperX s.
Proof.
  intros Hw. unfold handleMainScrollUpdate.
  destruct (F_horizontalWrapper p (updateBackgroundColor interpolate p s)) as [E1 E2].
  destruct (B_horizontalWrapper p s) as [E3 E4].
  rewrite E3 in E1. rewrite E4 in E2. rewrite <- E2.
  set (t := updateFlipAnimation p _) in *. clearbody t.
  destruct t as [c ms mt img hs hw clone act flip lc dc trg bg tx wx op nd bd lf nx].
  cbn in E1. subst hw. unfold updateHorizontalScroll. cbn.
  destruct (horizontalWrapper s); [|congruence].
  destruct (gtb p 0.2 && leb p 0.95), (gtb p 0.95), clone; reflexivity.
Qed.

(** C2 (amended). With a wrapper in the page, an update with [p] leaves the
    wrapper's translation as it was when [p <= 0.2]; sets it to
    [-66.67 * (p - 0.2) / 0.75] percent when [0.2 < p <= 0.95]; and to
    -66.67 percent when [p >= 0.95]. Above 0.2 the translation does not
    increase with [p] and stays between -66.67 and 0. *)
Theorem wrapper_translation (s : State Color) (p : Q) :
  horizontalWrapper s <> None ->
  let x := wrapperX (handle p s) in
  (p <= 0.2 -> x = wrapperX s)
  /\ (0.2 < p -> p <= 0.95 -> x = Some (-66.67 * ((p - 0.2) / 0.75)))
  /\ (0.95 <= p -> exists v, x = Some v /\ v == -66.67)
  /\ (0.2 < p ->
      forall (t : State Color) (q : Q),
        horizontalWrapper t <> None -> p <= q ->
        -66.67 <= shownX (wrapperX (handle q t))
        /\ shownX (wrapperX (handle q t)) <= shownX x
        /\ shownX x < 0).
Proof.
  intros Hw x.
  assert (Ex := handle_wrapperX s p Hw). fold x in Ex.
  assert (mid : forall r, 0.2 < r -> r <= 0.95 ->
            gtb r 0.2 && leb r 0.95 = true).
  { intros r H1 H2. apply andb_true_iff. split;
      [apply gtb_true | apply leb_true]; assumption. }
  assert (top : forall r, 0.95 < r ->
            gtb r 0.2 && leb r 0.95 = false /\ gtb r 0.95 = true).
  { intros r H1. split; [|apply gtb_true; exact H1].
    apply andb_false_iff. right. apply leb_false. exact H1. }
  repeat split.
  - intros Hp. rewrite Ex.
    assert (gtb p 0.2 = false) as -> by (apply gtb_false; exact Hp).
    assert (gtb p 0.95 = false) as -> by (apply gtb_false; lra).
    reflexivity.
  - intros H1 H2. rewrite Ex, (mid p H1 H2). reflexivity.
  - intros Hp. destruct (Qlt_le_dec 0.95 p) as [Hgt|Hle].
    + destruct (top p Hgt) as [-> ->] in Ex.
      exists (-66.67). split; [exact Ex|reflexivity].
    + rewrite (mid p) in Ex by lra. eexists. split; [exact Ex|].
      rewrite div_075. lra.
  - destruct (Qlt_le_dec 0.95 q) as [Hgt|Hle].
    + rewrite (handle_wrapperX t q) by assumption.
      destruct (top q Hgt) as [-> ->]. cbn. lra.
    + rewrite (handle_wrapperX t q) by assumption.
      rewrite (mid q) by lra. cbn. rewrite div_075. lra.
  - destruct (Qlt_le_dec 0.95 q) as [Hgt|Hle];
      rewrite (handle_wrapperX t q) by assumption.
    + destruct (top q Hgt) as [-> ->]. rewrite Ex.
      destruct (Qlt_le_dec 0.95 p) as [Hgt'|Hle'].
      * destruct (top p Hgt') as [-> ->]. cbn. lra.
      * rewrite (mid p) by lra. cbn. rewrite div_075. lra.
    + rewrite (mid q) by lra. rewrite Ex, (mid p) by lra. cbn.
      rewrite !div_075. lra.
  - rewrite Ex. destruct (Qlt_le_dec 0.95 p) as [Hgt'|Hle'].
    + destruct (top p Hgt') as [-> ->]. cbn. lra.
    + rewrite (mid p) by lra. cbn. rewrite div_075. lra.
Qed.

End Phases.

Section Background.

Context {Color : Type} (interpolate : Color -> Color -> Q -> Color).

(** What the dispatcher relies on from [gsap.utils.interpolate]: the result
    depends on the value of the parameter only, and the end points are the
    two colours. *)
Hypothesis interpolate_proper :
  forall a b t t', t == t' -> interpolate a b t = interpolate a b t'.
Hypothesis interpolate_start : forall a b, interpolate a b 0 = a.
Hypothesis interpolate_end : forall a b, interpolate a b 1 = b.

(** C4. With a container in the page, the background after an update with
    [p] is the colour interpolated from light to dark with parameter
    [min (p / 0.05) 1]: the light colour at [p = 0], the dark colour at every
    [p >= 0.05], the colour half way at [p = 0.025]. *)
Theorem background_phase (s : State Color) (p : Q) :
  container s <> None ->
  let bg := backgroundColor (handleMainScrollUpdate interpolate p s) in
  bg = Some (interpolate (lightColor s) (darkColor s) (Qmin (p / 0.05) 1))
  /\ (p == 0 -> bg = Some (lightColor s))
  /\ (0.05 <= p -> bg = Some (darkColor s))
  /\ (p == 0.025 -> bg = Some (interpolate (lightColor s) (darkColor s) 0.5)).
Proof.
  intros Hc bg.
  assert (E : bg = if leb p 0.05
                   then Some (interpolate (lightColor s) (darkColor s)
                                (Qmin (p / 0.05) 1))
                   else Some (darkColor s)).
  { subst bg. unfold handleMainScrollUpdate. rewrite H_background, F_background.
    unfold updateBackgroundColor. destruct (container s); [|congruence].
    cbn. destruct (leb p 0.05); reflexivity. }
  assert (G : bg = Some (interpolate (lightColor s) (darkColor s)
                           (Qmin (p / 0.05) 1))).
  { rewrite E. destruct (leb p 0.05) eqn:L; [reflexivity|].
    apply leb_false in L. f_equal.
    rewrite <- (interpolate_end (lightColor s) (darkColor s)) at 1.
    apply interpolate_proper. symmetry. apply Q.min_r. rewrite div_005. lra. }
  split; [exact G|]. repeat split.
  - intros Hp. rewrite G. f_equal.
    rewrite <- (interpolate_start (lightColor s) (darkColor s)) at 2.
    apply interpolate_proper. rewrite Q.min_l; rewrite div_005; lra.
  - intros Hp. rewrite G. f_equal.
    rewrite <- (interpolate_end (lightColor s) (darkColor s)) at 2.
    apply interpolate_proper. apply Q.min_r. rewrite div_005. lra.
  - intros Hp. rewrite G. f_equal.
    apply interpolate_proper. rewrite Q.min_l; rewrite div_005; lra.
Qed.

End Background.



(** The amended C2 on the sample page, half way through the scroll. *)
Lemma wrapper_translation_witness :
  horizontalWrapper Sample.complexReady <> None
  /\ wrapperX (handleMainScrollUpdate Rgb.interpolate 0.5 Sample.complexReady)
     = Some (-66.67 * ((0.5 - 0.2) / 0.75)).
Proof.
  assert (Hw : horizontalWrapper Sample.complexReady <> None)
    by (vm_compute; discriminate).
  split; [exact Hw|].
  apply (proj1 (proj2 (wrapper_translation Rgb.interpolate
                         Sample.complexReady 0.5 Hw)));
    vm_compute; congruence.
Defined.

(** C2 as stated fails at [p = 0.2] on the way back from 0.3: the wrapper
    still shows the translation of 0.3, not 0. *)
Lemma wrapper_not_reset_at_020 :
  horizontalWrapper (handleMainScrollUpdate Rgb.interpolate 0.3 Sample.complexReady)
  <> None
  /\ ~ shownX (wrapperX (handleMainScrollUpdate Rgb.interpolate 0.2
                           (handleMainScrollUpdate Rgb.interpolate 0.3
                              Sample.complexReady))) == 0.
Proof.
  split; [vm_compute; discriminate|]. vm_compute. discriminate.
Qed.

(** C4 on the sample page: grey 240 to grey 16 passes through grey 128. *)
Lemma background_phase_witness :
  container Sample.complex0 <> None
  /\ 0.025 == 0.025
  /\ backgroundColor (handleMainScrollUpdate Rgb.interpolate 0.025 Sample.complex0)
     = Some (Rgb.gray 128).
Proof.
  assert (Hc : container Sample.complex0 <> None) by (vm_compute; discriminate).
  split; [exact Hc|]. split; [reflexivity|].
  rewrite <- RgbFacts.rgb_midway.
  apply (proj2 (proj2 (proj2 (background_phase Rgb.interpolate
                                RgbFacts.rgb_proper RgbFacts.rgb_start
                                RgbFacts.rgb_end Sample.complex0 0.025 Hc)))).
  reflexivity.
Defined.

End Dispatcher.

(** ** Clone and FLIP life cycle of the Complex Scroller *)

Module Lifecycle.
Import JS ComplexHorizontal NumberFacts.
Local Open Scope Q_scope.

Lemma filter_other_singleton (i : nat) : filter (fun n => n <> i) [i] = [].
Proof. cbn. destruct (decide (i <> i)); [congruence|reflexivity]. Qed.

Ltac open_state s :=
  destruct s as [c ms mt img hs hw clone act flip lc dc trg bg tx wx op nd bd lf nx].

Section Invariant.

Context {Color : Type} (interpolate : Color -> Color -> Q -> Color).

Lemma construct_consistent d (light dark : Color) :
  consistent (construct d light dark).
Proof. destruct d as [[] [] [] [] [] [] []]; cbv; auto. Qed.

Lemma create_consistent (s : State Color) :
  consistent s ->
  exists s', createPinnedImgClone s = Normal s' /\ consistent s'.
Proof.
  open_state s. unfold consistent, createPinnedImgClone. cbn.
  intros [Hc Hf]. destruct act; cbn.
  - eexists. split; [reflexivity|]. cbn. auto.
  - destruct img; cbn.
    + eexists. split; [reflexivity|]. cbn.
      destruct clone; destruct Hc as [? ->]; [discriminate|]. auto.
    + eexists. split; [reflexivity|]. cbn. auto.
Qed.

Lemma remove_consistent (s : State Color) :
  consistent s ->
  exists s', removePinnedImgClone s = Normal s' /\ consistent s'.
Proof.
  open_state s. unfold consistent, removePinnedImgClone. cbn -[filter].
  intros [Hc Hf]. destruct act; cbn -[filter].
  - destruct clone as [id|]; destruct Hc as [? ->]; [|discriminate].
    cbn -[filter]. rewrite filter_other_singleton.
    destruct img; cbn -[filter]; eexists; (split; [reflexivity|]);
      cbn -[filter]; auto.
  - eexists. split; [reflexivity|]. cbn -[filter]. auto.
Qed.

Lemma initialize_consistent (s : State Color) :
  consistent s -> consistent (initializeFlipAnimation s).
Proof.
  open_state s. unfold consistent, initializeFlipAnimation. cbn -[filter].
  intros [Hc Hf]. destruct clone, act, flip; cbn -[filter]; auto.
  subst lf. auto.
Qed.

Lemma reset_consistent (s : State Color) :
  consistent s ->
  exists s', resetFlipAnimation s = Normal s' /\ consistent s'.
Proof.
  open_state s. unfold consistent, resetFlipAnimation, killFlip. cbn -[filter].
  intros [Hc Hf]. destruct flip as [f|]; cbn -[filter].
  - subst lf. rewrite filter_other_singleton.
    destruct c, hw; cbn -[filter]; eexists; (split; [reflexivity|]);
      cbn -[filter]; auto.
  - destruct c, hw; cbn -[filter]; eexists; (split; [reflexivity|]);
      cbn -[filter]; auto.
Qed.

Lemma consistent_skeleton (s t : State Color) :
  skeleton s = skeleton t -> consistent s -> consistent t.
Proof.
  unfold skeleton, consistent. intros E. injection E as E1 E2 E3 E4 E5.
  rewrite E1, E2, E3, E4. intros [Hc Hf]. split; [exact Hc|].
  rewrite Hf. destruct (flipAnimation s), (flipAnimation t);
    cbn in E5; congruence.
Qed.

Lemma background_skeleton p (s : State Color) :
  skeleton (updateBackgroundColor interpolate p s) = skeleton s.
Proof.
  open_state s. unfold updateBackgroundColor. cbn.
  destruct c; cbn; [|reflexivity]. destruct (leb p 0.05); reflexivity.
Qed.

Lemma flip_skeleton p (s : State Color) :
  skeleton (updateFlipAnimation p s) = skeleton s.
Proof.
  open_state s. unfold updateFlipAnimation. cbn.
  destruct flip; cbn; [|reflexivity]. destruct (leb p 0.2); reflexivity.
Qed.

Lemma horizontal_skeleton p (s : State Color) :
  skeleton (updateHorizontalScroll p s) = skeleton s.
Proof.
  open_state s. unfold updateHorizontalScroll. cbn.
  destruct (gtb p 0.2 && leb p 0.95), (gtb p 0.95), hw, clone; reflexivity.
Qed.

Lemma handle_consistent p (s : State Color) :
  consistent s -> consistent (handleMainScrollUpdate interpolate p s).
Proof.
  apply consistent_skeleton. unfold handleMainScrollUpdate.
  rewrite horizontal_skeleton, flip_skeleton, background_skeleton. reflexivity.
Qed.

Lemma destroy_consistent (s : State Color) :
  consistent s ->
  exists s', destroy s = Normal s' /\ consistent s'.
Proof.
  intros Hs. unfold destroy.
  set (s0 := set_scrollTriggers [] s).
  assert (H0 : consistent s0) by (open_state s; exact Hs).
  clearbody s0. clear Hs s.
  assert (exists s1, (if truthy (flipAnimation s0)
                      then do f <- deref (flipAnimation s0) ;
                           Normal (set_flipAnimation None (killFlip f s0))
                      else Normal s0) = Normal s1 /\ consistent s1)
    as (s1 & -> & H1).
  { open_state s0. destruct H0 as [Hc Hf]. cbn -[filter] in *.
    destruct flip; cbn -[filter].
    - subst lf. eexists. split; [reflexivity|]. split; [exact Hc|].
      apply filter_other_singleton.
    - eexists. split; [reflexivity|]. split; assumption. }
  cbn [bind]. destruct (remove_consistent s1 H1) as (s2 & -> & H2).
  cbn [bind]. eexists. split; [reflexivity|].
  open_state s2. destruct c, mt, hw; exact H2.
Qed.

Lemma fire_consistent e (s : State Color) :
  consistent s ->
  exists s', fire interpolate e s = Normal s' /\ consistent s'.
Proof.
  intros Hs. destruct e; cbn [fire].
  - apply create_consistent, Hs.
  - apply create_consistent, Hs.
  - apply remove_consistent, Hs.
  - eexists. split; [reflexivity|]. apply initialize_consistent, Hs.
  - apply reset_consistent, Hs.
  - eexists. split; [reflexivity|]. open_state s. destruct mt; exact Hs.
  - eexists. split; [reflexivity|]. apply handle_consistent, Hs.
  - apply destroy_consistent, Hs.
Qed.

(** Every sequence of callbacks runs to the end, and keeps the invariant. *)
Lemma run_consistent es : forall s : State Color,
  consistent s ->
  exists s', run interpolate es s = Normal s' /\ consistent s'.
Proof.
  induction es as [|e es IH]; intros s Hs.
  - exists s. split; [reflexivity|exact Hs].
  - destruct (fire_consistent e s Hs) as (s1 & E1 & H1).
    destruct (IH s1 H1) as (s2 & E2 & H2).
    exists s2. split; [|exact H2]. unfold run. cbn [forEach]. rewrite E1. exact E2.
Qed.

(** C3. After any sequence of trigger callbacks, updates and destroys on a
    freshly constructed controller, at most one clone is attached to the
    document, and exactly one when [isImgCloneActive] holds; creating while
    a clone is active and removing while none is active change nothing. *)
Theorem at_most_one_clone :
  (forall d (light dark : Color) es,
      exists s : State Color,
        run interpolate es (construct d light dark) = Normal s
        /\ (length (body s) <= 1)%nat
        /\ (isImgCloneActive s = true <-> length (body s) = 1%nat))
  /\ (forall s : State Color,
        isImgCloneActive s = true -> createPinnedImgClone s = Normal s)
  /\ (forall s : State Color,
        isImgCloneActive s = false -> removePinnedImgClone s = Normal s).
Proof.
  repeat split.
  - intros d light dark es.
    destruct (run_consistent es (construct d light dark)
                (construct_consistent d light dark)) as (s & E & [Hc _]).
    exists s. split; [exact E|].
    destruct (pinnedImgClone s); destruct Hc as [-> ->]; cbn;
      repeat split; auto; discriminate.
  - intros s Ha. unfold createPinnedImgClone. rewrite Ha. reflexivity.
  - intros s Ha. unfold removePinnedImgClone. rewrite Ha. reflexivity.
Qed.

(** C9. After any sequence of callbacks on a freshly constructed controller
    at most one Flip animation is live, and one created then targets the
    clone attached to the document. [initializeFlipAnimation] changes nothing
    when there is no clone, when the clone is not active or when a Flip
    animation exists; when it creates one, the clone exists and is active and
    the animation starts paused at 0; calling it twice is calling it once. *)
Theorem at_most_one_flip :
  (forall d (light dark : Color) es,
      exists s : State Color,
        run interpolate es (construct d light dark) = Normal s
        /\ (length (liveFlips s) <= 1)%nat
        /\ forall f, flipAnimation s = None ->
                     flipAnimation (initializeFlipAnimation s) = Some f ->
                     body s = [flip_target f])
  /\ (forall s : State Color,
        pinnedImgClone s = None \/ isImgCloneActive s = false
        \/ flipAnimation s <> None ->
        initializeFlipAnimation s = s)
  /\ (forall (s : State Color) f,
        flipAnimation s = None ->
        flipAnimation (initializeFlipAnimation s) = Some f ->
        pinnedImgClone s = Some (flip_target f)
        /\ isImgCloneActive s = true
        /\ flip_progress f = 0
        /\ liveFlips (initializeFlipAnimation s) = liveFlips s ++ [flip_id f])
  /\ (forall s : State Color,
        initializeFlipAnimation (initializeFlipAnimation s)
        = initializeFlipAnimation s).
Proof.
  assert (created : forall (s : State Color) f,
             flipAnimation s = None ->
             flipAnimation (initializeFlipAnimation s) = Some f ->
             pinnedImgClone s = Some (flip_target f)
             /\ isImgCloneActive s = true
             /\ flip_progress f = 0
             /\ liveFlips (initializeFlipAnimation s) = liveFlips s ++ [flip_id f]).
  { intros s f. open_state s. unfold initializeFlipAnimation. cbn.
    intros ->. destruct clone, act; cbn; try discriminate.
    intros [= <-]. cbn. auto. }
  split; [|split; [|split]].
  - intros d light dark es.
    destruct (run_consistent es (construct d light dark)
                (construct_consistent d light dark)) as (s & E & [Hc Hf]).
    exists s. split; [exact E|]. split.
    + rewrite Hf. destruct (flipAnimation s); cbn; lia.
    + intros f H1 H2. destruct (created s f H1 H2) as (Hp & _).
      rewrite Hp in Hc. apply Hc.
  - intros s. open_state s. unfold initializeFlipAnimation. cbn.
    intros [->|[->|Hn]]; cbn; [reflexivity|destruct clone; reflexivity|].
    destruct flip; [|congruence]. destruct clone, act; reflexivity.
  - exact created.
  - intros s. open_state s. unfold initializeFlipAnimation. cbn.
    destruct clone, act, flip; reflexivity.
Qed.

End Invariant.

(** C3 on the sample page: a second enter while the clone is active. *)
Lemma at_most_one_clone_witness :
  isImgCloneActive Sample.complexReady = true
  /\ createPinnedImgClone Sample.complexReady = Normal Sample.complexReady.
Proof.
  assert (Ha : isImgCloneActive Sample.complexReady = true) by reflexivity.
  split; [exact Ha|].
  apply (proj1 (proj2 (at_most_one_clone Rgb.interpolate))). exact Ha.
Defined.

(** C9 on the sample page: a second enter of the shape-morph trigger. *)
Lemma at_most_one_flip_witness :
  flipAnimation Sample.complexReady <> None
  /\ initializeFlipAnimation Sample.complexReady = Sample.complexReady.
Proof.
  assert (Hf : flipAnimation Sample.complexReady <> None)
    by (vm_compute; discriminate).
  split; [exact Hf|].
  apply (proj1 (proj2 (at_most_one_flip Rgb.interpolate))).
  right. right. exact Hf.
Defined.

End Lifecycle.

(** ** The visibility state machine of the Horizontal Scroller *)

Module Visibility.
Import JS HorizontalScroll NumberFacts.
Local Open Scope Q_scope.

Lemma eachSlide_index f :
  (forall i sl s, currentVisibleIndex (f i sl s) = currentVisibleIndex s) ->
  forall l i s, currentVisibleIndex (eachSlide f i l s) = currentVisibleIndex s.
Proof.
  intros Hf l. induction l as [|sl l IH]; intros i s; cbn; [reflexivity|].
  rewrite IH. apply Hf.
Qed.

Lemma animateTitles_index a (s : State) :
  currentVisibleIndex (animateTitles a s) = currentVisibleIndex s.
Proof.
  unfold animateTitles. apply eachSlide_index.
  intros i sl t. unfold animateTitle. destruct (slide_title sl); reflexivity.
Qed.

(** [indexOf] finds the position of a slide of the list. *)
Lemma indexOf_lookup (l : list Slide) : forall (n : nat) (sl : Slide) (k : Z),
  NoDup (map slide_id l) ->
  l !! n = Some sl ->
  indexOf (slide_id sl) l k = (k + Z.of_nat n)%Z.
Proof.
  induction l as [|x l IH]; intros n sl k Hd Hn; [discriminate|].
  cbn [map] in Hd. apply NoDup_cons in Hd as [Hx Hd].
  destruct n as [|n]; cbn in Hn.
  - injection Hn as ->. cbn. rewrite Nat.eqb_refl. lia.
  - cbn [indexOf]. destruct (Nat.eqb (slide_id x) (slide_id sl)) eqn:E.
    + apply Nat.eqb_eq in E. exfalso. apply Hx. rewrite E.
      apply list_elem_of_fmap. exists sl. split; [reflexivity|].
      eapply list_elem_of_lookup_2, Hn.
    + rewrite (IH n sl (k + 1)%Z Hd Hn). lia.
Qed.

(** C8. A below-threshold entry for the slide at position [n]: when that
    slide is the active one, the active index becomes [n - 1], or [null] for
    the first slide; when it is not, nothing changes. *)
Theorem trailing_edge (s : State) (e : Entry) (n : nat) (sl : Slide) :
  NoDup (map slide_id (slides s)) ->
  slides s !! n = Some sl ->
  target e = slide_id sl ->
  intersectionRatio e < 0.25 ->
  (currentVisibleIndex s = Some (Z.of_nat n) ->
   currentVisibleIndex (handleEntry e s) =
   match n with
   | O => None
   | S m => Some (Z.of_nat m)
   end)
  /\ (currentVisibleIndex s <> Some (Z.of_nat n) -> handleEntry e s = s).
Proof.
  intros Hd Hn Ht Hr.
  assert (Hi : indexOf (target e) (slides s) 0 = Z.of_nat n).
  { rewrite Ht. rewrite (indexOf_lookup _ n sl 0%Z Hd Hn). lia. }
  unfold handleEntry. rewrite Hi.
  assert (leb 0.25 (intersectionRatio e) = false) as ->
      by (apply leb_false; exact Hr).
  assert (gtb 0.25 (intersectionRatio e) = true) as ->
      by (apply gtb_true; exact Hr).
  cbn [andb]. split.
  - intros Hc. rewrite Hc. cbn [strictEq]. rewrite Z.eqb_refl.
    rewrite animateTitles_index. cbn.
    destruct n as [|m].
    + reflexivity.
    + replace (Z.of_nat (S m) - 1)%Z with (Z.of_nat m) by lia.
      assert ((0 <=? Z.of_nat m)%Z = true) as -> by (apply Z.leb_le; lia).
      reflexivity.
  - intros Hc. destruct (currentVisibleIndex s) as [j|]; cbn; [|reflexivity].
    destruct (Z.eqb j (Z.of_nat n)) eqn:E; [|reflexivity].
    apply Z.eqb_eq in E. congruence.
Qed.

(** C8 on the sample page: the second slide is active and leaves. *)
Lemma trailing_edge_witness :
  currentVisibleIndex Sample.homeActive = Some 1%Z
  /\ intersectionRatio Sample.secondLeaves < 0.25
  /\ currentVisibleIndex (handleEntry Sample.secondLeaves Sample.homeActive)
     = Some 0%Z.
Proof.
  assert (Hc : currentVisibleIndex Sample.homeActive = Some (Z.of_nat 1))
    by reflexivity.
  assert (Hr : intersectionRatio Sample.secondLeaves < 0.25) by reflexivity.
  split; [exact Hc|]. split; [exact Hr|].
  apply (proj1 (trailing_edge Sample.homeActive Sample.secondLeaves 1
                  {| slide_id := 11; slide_title := true; slide_img := true |}
                  ltac:(apply (bool_decide_unpack _); vm_compute; exact I)
                  eq_refl eq_refl Hr)).
  exact Hc.
Defined.

Lemma construct_completes (d : Document) : completes (construct d).
Proof.
  unfold completes, construct, setupDimensions.
  destruct (slider (setupElements d)), (slidesContainer (setupElements d));
    cbn; eexists; reflexivity.
Qed.

(** [destroy] completes in every state of the controller. *)
Lemma destroy_completes (s : State) : completes (destroy s).
Proof.
  unfold completes, destroy.
  destruct s as [st sc sr sl sh tm sw cvi trg obs ta ty cx].
  destruct trg, obs; cbn; eexists; reflexivity.
Qed.

End Visibility.

(** ** The card gallery: exclusive playback and the beat pulse *)

Module Gallery.
Import JS MeduzaHorizontal NumberFacts.
Local Open Scope Q_scope.

Ltac open_state s :=
  destruct s as [c ps bt bct cbt cur au tg ls pd tw nx].

(** What [stopBeatPulse] leaves alone, and what it does to the tweens. *)
Lemma stopBeatPulse_spec (s : State) :
  exists s',
    stopBeatPulse s = Normal s'
    /\ beatTween s' = None /\ beatColorTween s' = None /\ cardsBeatTween s' = None
    /\ currentAudio s' = currentAudio s
    /\ audios s' = audios s
    /\ toggles s' = toggles s
    /\ pending s' = pending s
    /\ listeners s' = listeners s
    /\ forall u, u ∈ tweens s' -> tw_loop u = true ->
         u ∈ tweens s
         /\ beatTween s <> Some u /\ beatColorTween s <> Some u
         /\ cardsBeatTween s <> Some u.
Proof.
  open_state s. unfold stopBeatPulse, killTween, newTween.
  destruct bt as [t1|], bct as [t2|], cbt as [t3|]; cbn -[filter];
    (eexists; split; [reflexivity|]); cbn -[filter];
    repeat (split; [reflexivity|]);
    intros u Hu Hl;
    rewrite !elem_of_app, !elem_of_cons, elem_of_nil in Hu;
    destruct_or!; try contradiction; try (subst u; discriminate);
    repeat match goal with
           | H : _ ∈ filter _ _ |- _ => apply list_elem_of_filter in H as [? H]
           end;
    repeat split; try assumption; try discriminate;
    intros [= ?]; subst; congruence.
Qed.

Lemma stopBeatPulse_completes (s : State) : completes (stopBeatPulse s).
Proof. destruct (stopBeatPulse_spec s) as (s' & E & _). exists s'. exact E. Qed.

(** C6. Starting the pulse while any of the three loop tweens exists changes
    nothing, so no tween is created. Stopping completes in every state, with
    or without loop tweens; afterwards the three references are null, and a
    looping tween still live was live before and was none of the three. *)
Theorem pulse_guard :
  (forall (s : State) (bpm : Q),
      beatTween s <> None \/ beatColorTween s <> None \/ cardsBeatTween s <> None ->
      startBeatPulse bpm s = s)
  /\ (forall s : State,
        exists s',
          stopBeatPulse s = Normal s'
          /\ beatTween s' = None /\ beatColorTween s' = None
          /\ cardsBeatTween s' = None
          /\ forall u, u ∈ tweens s' -> tw_loop u = true ->
               u ∈ tweens s
               /\ beatTween s <> Some u /\ beatColorTween s <> Some u
               /\ cardsBeatTween s <> Some u).
Proof.
  split.
  - intros s bpm H. unfold startBeatPulse.
    destruct (beatTween s), (beatColorTween s), (cardsBeatTween s);
      cbn; try reflexivity.
    destruct H as [H|[H|H]]; congruence.
  - intros s. destruct (stopBeatPulse_spec s) as (s' & E & H1 & H2 & H3 & _ & _ & _ & _ & _ & H4).
    exists s'. auto.
Qed.

Lemma lookup_pause k j (s : State) :
  audios (pause k s) !! j =
  if decide (k = j)
  then (fun a => {| paused := true; currentTime := currentTime a |}) <$> audios s !! j
  else audios s !! j.
Proof.
  open_state s. unfold pause. cbn. rewrite lookup_alter.
  destruct (decide (k = j)) as [->|]; reflexivity.
Qed.

Lemma lookup_play k j (s : State) :
  audios (play k s) !! j =
  if decide (k = j)
  then (fun a => {| paused := false; currentTime := currentTime a |}) <$> audios s !! j
  else audios s !! j.
Proof.
  open_state s. unfold play. cbn. rewrite lookup_alter.
  destruct (decide (k = j)) as [->|]; reflexivity.
Qed.

Lemma lookup_rewind k j (s : State) :
  audios (rewind k s) !! j =
  if decide (k = j)
  then (fun a => {| paused := paused a; currentTime := 0 |}) <$> audios s !! j
  else audios s !! j.
Proof.
  open_state s. unfold rewind. cbn. rewrite lookup_alter.
  destruct (decide (k = j)) as [->|]; reflexivity.
Qed.

Lemma timeOf_pause k j (s : State) : timeOf (pause k s) j = timeOf s j.
Proof.
  unfold timeOf. rewrite lookup_pause. destruct (decide (k = j)); [|reflexivity].
  destruct (audios s !! j); reflexivity.
Qed.

Lemma timeOf_play k j (s : State) : timeOf (play k s) j = timeOf s j.
Proof.
  unfold timeOf. rewrite lookup_play. destruct (decide (k = j)); [|reflexivity].
  destruct (audios s !! j); reflexivity.
Qed.

Lemma startBeatPulse_frame bpm (s : State) :
  audios (startBeatPulse bpm s) = audios s
  /\ toggles (startBeatPulse bpm s) = toggles s
  /\ currentAudio (startBeatPulse bpm s) = currentAudio s.
Proof.
  open_state s. unfold startBeatPulse. cbn.
  destruct bt, bct, cbt; cbn; auto.
Qed.

Lemma checked_uncheckOthers i j (s : State) :
  checked j (uncheckOthers i s) = if Nat.eqb j i then checked j s else false.
Proof.
  open_state s. unfold checked, uncheckOthers. cbn.
  rewrite map_lookup_imap. destruct (tg !! j); cbn; destruct (Nat.eqb j i); reflexivity.
Qed.

(** What the first statement of the listener does when another card is
    current. *)
Lemma stopPrevious_other i c (s : State) :
  currentAudio s = Some c -> c <> i ->
  stopPrevious i s = Normal (uncheckOthers i (rewind c (pause c s))).
Proof.
  intros Hc Hn. unfold stopPrevious, isOtherCurrent. rewrite Hc.
  apply Nat.eqb_neq in Hn. rewrite Hn. reflexivity.
Qed.

Lemma stopPrevious_same i (s : State) :
  currentAudio s = None \/ currentAudio s = Some i ->
  stopPrevious i s = Normal s.
Proof.
  intros [H|H]; unfold stopPrevious, isOtherCurrent; rewrite H;
    [|rewrite Nat.eqb_refl]; reflexivity.
Qed.

(** What the second statement of the listener does. *)
Lemma playOrPause_spec i (s : State) :
  exists s',
    playOrPause i s = Normal s'
    /\ toggles s' = toggles s
    /\ currentAudio s' = currentAudio s
    /\ listeners s' = listeners s
    /\ (forall j, j <> i -> audios s' !! j = audios s !! j)
    /\ (forall j, timeOf s' j = timeOf s j)
    /\ (checked i s = true -> s' = play i s)
    /\ (checked i s = false ->
        audios s' = audios (pause i s) /\ pending s' = pending s
        /\ beatTween s' = None /\ beatColorTween s' = None
        /\ cardsBeatTween s' = None).
Proof.
  unfold playOrPause. destruct (checked i s) eqn:E.
  - exists (play i s). split; [reflexivity|].
    repeat split; try (open_state s; reflexivity); try discriminate.
    + intros j Hj. rewrite lookup_play. destruct (decide (i = j)); congruence.
    + intros j. apply timeOf_play.
  - destruct (stopBeatPulse_spec (pause i s))
      as (s' & -> & H1 & H2 & H3 & H4 & H5 & H6 & H7 & H8 & _).
    exists s'. split; [reflexivity|]. unfold timeOf. rewrite H5, H4, H6, H8.
    repeat split; try (open_state s; reflexivity); try discriminate;
      try assumption.
    + intros j Hj. rewrite lookup_pause. destruct (decide (i = j)); congruence.
    + intros j. apply timeOf_pause.
Qed.

Lemma playing_pause k j (s : State) :
  playing j (pause k s) = if decide (k = j) then false else playing j s.
Proof.
  unfold playing. rewrite lookup_pause. destruct (decide (k = j)); [|reflexivity].
  destruct (audios s !! j); reflexivity.
Qed.

Lemma playing_rewind k j (s : State) : playing j (rewind k s) = playing j s.
Proof.
  unfold playing. rewrite lookup_rewind. destruct (decide (k = j)); [|reflexivity].
  destruct (audios s !! j); reflexivity.
Qed.

Lemma playing_audios j (s t : State) : audios s = audios t -> playing j s = playing j t.
Proof. unfold playing. intros ->. reflexivity. Qed.

Lemma removeFirst_singleton i : removeFirst i [i] = [].
Proof. cbn. rewrite Nat.eqb_refl. reflexivity. Qed.

(** After the first statement of the listener of card [i], no other card
    plays. *)
Lemma stopPrevious_quiet i (s : State) :
  exclusive s ->
  exists s1, stopPrevious i s = Normal s1
             /\ pending s1 = []
             /\ currentAudio s1 = currentAudio s
             /\ listeners s1 = listeners s
             /\ forall j, playing j s1 = true -> j = i.
Proof.
  intros [Hp Hx]. destruct (currentAudio s) as [c|] eqn:Hc.
  - destruct (decide (c = i)) as [->|Hci].
    + exists s. rewrite stopPrevious_same by (right; exact Hc).
      repeat split; try assumption. intros j Hj. specialize (Hx j Hj). congruence.
    + exists (uncheckOthers i (rewind c (pause c s))).
      rewrite (stopPrevious_other i c s Hc Hci).
      repeat split; try assumption.
      intros j Hj.
      change (playing j (rewind c (pause c s)) = true) in Hj.
      rewrite playing_rewind, playing_pause in Hj.
      destruct (decide (c = j)); [discriminate|].
      specialize (Hx j Hj). congruence.
  - exists s. rewrite stopPrevious_same by (left; exact Hc).
    repeat split; try assumption. intros j Hj. specialize (Hx j Hj). congruence.
Qed.

Lemma toggle_settled_exclusive i o (s : State) :
  exclusive s ->
  exists s', fireSettled (ToggleThen i o) s = Normal s' /\ exclusive s'.
Proof.
  intros Hs. cbn [fireSettled fire].
  set (st := set_toggles (alter negb i (toggles s)) s).
  assert (Hst : exclusive st) by exact Hs.
  clearbody st. clear Hs s.
  destruct (hasListener i st).
  2:{ cbn [bind]. exists st. split; [|exact Hst].
      destruct Hst as [Hp _]. destruct o; cbn [settle fire]; rewrite Hp; reflexivity. }
  unfold onChange.
  destruct (stopPrevious_quiet i st Hst) as (s1 & -> & Hp1 & Hc1 & _ & Hq1).
  cbn [bind].
  destruct (playOrPause_spec i s1) as (s2 & -> & _ & Hc2 & _ & Hau & _ & Hplay & Hpause).
  cbn [bind].
  destruct (checked i s1) eqn:Hch.
  - specialize (Hplay eq_refl). subst s2.
    assert (Hpd : pending (play i s1) = [i]) by (cbn; rewrite Hp1; reflexivity).
    destruct o; cbn [settle fire]; rewrite Hpd; cbn [existsb orb]; rewrite Nat.eqb_refl;
      cbn [orb]; rewrite removeFirst_singleton; eexists; (split; [reflexivity|]).
    + split.
      * destruct (startBeatPulse_frame 124
                    (set_currentAudio (Some i) (set_pending [] (play i s1)))) as (_ & _ & _).
        unfold onPlayResolved, startBeatPulse.
        destruct (truthy _ || truthy _ || truthy _); reflexivity.
      * intros j Hj. unfold onPlayResolved in *.
        destruct (startBeatPulse_frame 124
                    (set_currentAudio (Some i) (set_pending [] (play i s1)))) as (Ha & _ & Hc).
        rewrite Hc. cbn. f_equal.
        rewrite (playing_audios j _ _ Ha) in Hj.
        change (playing j (play i s1) = true) in Hj.
        destruct (decide (j = i)) as [->|Hji]; [reflexivity|].
        symmetry. apply Hq1. unfold playing in *. rewrite lookup_play in Hj.
        destruct (decide (i = j)); [congruence|exact Hj].
    + split; [reflexivity|].
      intros j Hj. exfalso.
      change (playing j (pause i (play i s1)) = true) in Hj.
      rewrite playing_pause in Hj. destruct (decide (i = j)) as [|Hij]; [discriminate|].
      unfold playing in Hj. rewrite lookup_play in Hj.
      destruct (decide (i = j)); [congruence|].
      apply Hij. symmetry. apply Hq1. exact Hj.
  - destruct (Hpause eq_refl) as (Ha2 & Hp2 & _).
    assert (Hpd : pending s2 = []) by (rewrite Hp2; exact Hp1).
    exists s2. split.
    + destruct o; cbn [settle fire]; rewrite Hpd; reflexivity.
    + split; [exact Hpd|]. intros j Hj. exfalso.
      rewrite (playing_audios j _ _ Ha2), playing_pause in Hj.
      destruct (decide (i = j)) as [|Hij]; [discriminate|].
      apply Hij. symmetry. apply Hq1. exact Hj.
Qed.

Lemma ended_exclusive i (s : State) :
  exclusive s ->
  exists s', fireSettled (EndedThen i) s = Normal s' /\ exclusive s'.
Proof.
  intros Hs. cbn [fireSettled fire]. destruct (hasListener i s).
  - unfold onEnded.
    destruct (stopBeatPulse_spec (setChecked i false s))
      as (s' & -> & _ & _ & _ & Hc & Ha & _ & Hp & _).
    exists s'. split; [reflexivity|]. destruct Hs as [Hp0 Hx]. split.
    + rewrite Hp. exact Hp0.
    + intros j Hj. rewrite Hc. rewrite (playing_audios j _ _ Ha) in Hj.
      apply Hx. exact Hj.
  - exists s. split; [reflexivity|exact Hs].
Qed.

Lemma runSettled_exclusive es : forall s,
  exclusive s -> exists s', runSettled es s = Normal s' /\ exclusive s'.
Proof.
  induction es as [|e es IH]; intros s Hs.
  - exists s. split; [reflexivity|exact Hs].
  - assert (exists s1, fireSettled e s = Normal s1 /\ exclusive s1) as (s1 & E1 & H1).
    { destruct e; [apply toggle_settled_exclusive|apply ended_exclusive]; exact Hs. }
    destruct (IH s1 H1) as (s2 & E2 & H2). exists s2. split; [|exact H2].
    unfold runSettled. cbn [forEach]. rewrite E1. exact E2.
Qed.

Lemma scanCards_quiet l : forall i s,
  pending s = [] -> currentAudio s = None ->
  (forall j, playing j s = false) ->
  pending (scanCards i l s) = [] /\ currentAudio (scanCards i l s) = None
  /\ forall j, playing j (scanCards i l s) = false.
Proof.
  induction l as [|c l IH]; intros i s Hp Hc Hq; cbn [scanCards]; [auto|].
  apply IH.
  - destruct (has_audio c), (has_toggle c); exact Hp.
  - destruct (has_audio c), (has_toggle c); exact Hc.
  - intros j. destruct (has_audio c), (has_toggle c); cbn; unfold playing; cbn;
      try apply Hq; destruct (decide (i = j)) as [->|];
      rewrite ?lookup_insert_eq, ?lookup_insert_ne by assumption;
      try reflexivity; apply Hq.
Qed.

Lemma construct_exclusive d : exclusive (construct d).
Proof.
  unfold construct.
  destruct (scanCards_quiet (doc_cards d) 0
              {| container := querySelector (doc_app d) App;
                 pinSection := querySelector (doc_pinSection d) PinSection;
                 beatTween := None; beatColorTween := None; cardsBeatTween := None;
                 currentAudio := None; audios := ∅; toggles := ∅; listeners := [];
                 pending := []; tweens := []; nextId := O |})
    as (Hp & Hc & Hq); try reflexivity.
  split; [exact Hp|]. intros j Hj. rewrite Hq in Hj. discriminate.
Qed.


Lemma timeOf_rewind k j (s : State) :
  timeOf (rewind k s) j = if decide (k = j) then (fun _ => 0) <$> timeOf s j else timeOf s j.
Proof.
  unfold timeOf. rewrite lookup_rewind. destruct (decide (k = j)); [|reflexivity].
  destruct (audios s !! j); reflexivity.
Qed.

(** The only listener that moves a playback position is the change listener
    of another card, and it moves it to [0]. *)
Lemma rewind_only_by_other_toggle (s s' : State) (e : Event) (j : nat) (t t' : Q) :
  fire e s = Normal s' ->
  timeOf s j = Some t ->
  timeOf s' j = Some t' ->
  t' <> t ->
  exists i, e = Toggle i /\ i <> j /\ currentAudio s = Some j /\ t' = 0.
Proof.
  intros E Ht Ht' Hne.
  destruct e as [i|i|i|i]; cbn [fire] in E.
  - set (st := set_toggles (alter negb i (toggles s)) s) in E.
    assert (T0 : timeOf st j = Some t) by exact Ht.
    assert (C0 : currentAudio st = currentAudio s) by reflexivity.
    clearbody st. destruct (hasListener i st).
    2:{ injection E as <-. congruence. }
    unfold onChange in E.
    destruct (currentAudio st) as [c|] eqn:Hc.
    + destruct (decide (c = i)) as [->|Hci].
      * rewrite stopPrevious_same in E by (right; exact Hc). cbn [bind] in E.
        destruct (playOrPause_spec i st) as (s2 & E2 & _ & _ & _ & _ & Htime & _).
        rewrite E2 in E. injection E as <-. rewrite Htime in Ht'. congruence.
      * rewrite (stopPrevious_other i c st Hc Hci) in E. cbn [bind] in E.
        destruct (playOrPause_spec i (uncheckOthers i (rewind c (pause c st))))
          as (s2 & E2 & _ & _ & _ & _ & Htime & _).
        rewrite E2 in E. injection E as <-. rewrite Htime in Ht'.
        change (timeOf (uncheckOthers i (rewind c (pause c st))) j)
          with (timeOf (rewind c (pause c st)) j) in Ht'.
        rewrite timeOf_rewind, timeOf_pause, T0 in Ht'.
        destruct (decide (c = j)) as [->|Hcj]; [|congruence].
        cbn in Ht'. injection Ht' as <-.
        exists i. repeat split; congruence.
    + rewrite stopPrevious_same in E by (left; exact Hc). cbn [bind] in E.
      destruct (playOrPause_spec i st) as (s2 & E2 & _ & _ & _ & _ & Htime & _).
      rewrite E2 in E. injection E as <-. rewrite Htime in Ht'. congruence.
  - destruct (existsb _ _); injection E as <-; [|congruence].
    unfold onPlayResolved, timeOf in Ht'.
    destruct (startBeatPulse_frame 124
                (set_currentAudio (Some i)
                   (set_pending (removeFirst i (pending s)) s))) as (Ha & _).
    rewrite Ha in Ht'. unfold timeOf in Ht. cbn in Ht'. congruence.
  - destruct (existsb _ _); injection E as <-; [|congruence].
    change (timeOf (onPlayRejected i (pause i (set_pending (removeFirst i (pending s)) s))) j)
      with (timeOf (pause i (set_pending (removeFirst i (pending s)) s)) j) in Ht'.
    rewrite timeOf_pause in Ht'. change (timeOf s j = Some t') in Ht'. congruence.
  - destruct (hasListener i s); [|injection E as <-; congruence].
    unfold onEnded in E.
    destruct (stopBeatPulse_spec (setChecked i false s))
      as (s2 & E2 & _ & _ & _ & _ & Ha & _).
    rewrite E2 in E. injection E as <-. unfold timeOf in Ht'. rewrite Ha in Ht'.
    change (timeOf s j = Some t') in Ht'. congruence.
Qed.



(** C6 on the sample page: a second start while the pulse runs. *)
Lemma pulse_guard_witness :
  beatTween Sample.meduzaPlaying <> None
  /\ startBeatPulse 124 Sample.meduzaPlaying = Sample.meduzaPlaying.
Proof.
  assert (Hb : beatTween Sample.meduzaPlaying <> None)
    by (vm_compute; discriminate).
  split; [exact Hb|].
  apply (proj1 pulse_guard). left. exact Hb.
Defined.


End Gallery.

(** ** Teardown *)

Module Teardown.
Import JS App.
Local Open Scope Q_scope.

Lemma lenis_destroy_completes (s : LenisScroll.State) :
  completes (LenisScroll.destroy s).
Proof.
  unfold completes, LenisScroll.destroy.
  destruct (LenisScroll.lenis s); cbn; eexists; reflexivity.
Qed.

Section WithEngine.

Context {Color : Type}.

Lemma complex_remove_completes (s : ComplexHorizontal.State Color) :
  completes (ComplexHorizontal.removePinnedImgClone s).
Proof.
  unfold completes, ComplexHorizontal.removePinnedImgClone.
  destruct (ComplexHorizontal.isImgCloneActive s); cbn; [|eexists; reflexivity].
  destruct (ComplexHorizontal.pinnedImgClone s); cbn; eexists; reflexivity.
Qed.

(** [destroy] completes in every state of the Complex Scroller. *)
Lemma complex_destroy_completes (s : ComplexHorizontal.State Color) :
  completes (ComplexHorizontal.destroy s).
Proof.
  unfold completes, ComplexHorizontal.destroy.
  set (s0 := ComplexHorizontal.set_scrollTriggers [] s). clearbody s0.
  destruct (ComplexHorizontal.flipAnimation s0); cbn [truthy deref bind];
    match goal with
    | |- context [ComplexHorizontal.removePinnedImgClone ?t] =>
        destruct (complex_remove_completes t) as [s1 ->]
    end; cbn [bind]; eexists; reflexivity.
Qed.

Lemma destroy_defined_completes (c : Controller Color) :
  destroyMethod c <> None -> completes (callDestroy c).
Proof.
  unfold callDestroy. destruct c as [s|s|s|s]; cbn; intros H.
  - destruct (lenis_destroy_completes s) as [s' ->]. eexists; reflexivity.
  - destruct (Visibility.destroy_completes s) as [s' ->]. eexists; reflexivity.
  - destruct (complex_destroy_completes s) as [s' ->]. eexists; reflexivity.
  - congruence.
Qed.

Lemma destroyIfDefined_completes (c : Controller Color) :
  completes (destroyIfDefined c).
Proof.
  unfold destroyIfDefined. destruct (destroyMethod c) eqn:E; cbn.
  - apply destroy_defined_completes. congruence.
  - eexists; reflexivity.
Qed.

Lemma destroyEach_completes (l : list (Controller Color)) :
  completes (destroyEach l).
Proof.
  induction l as [|c l [l' IH]]; cbn; [eexists; reflexivity|].
  destruct (destroyIfDefined_completes c) as [c' ->]. cbn.
  rewrite IH. eexists; reflexivity.
Qed.

Lemma new_completes (k : Class Color) : completes (new k).
Proof.
  destruct k as [|d|d light dark|d]; cbn; try (eexists; reflexivity).
  destruct (Visibility.construct_completes d) as [s ->]. eexists; reflexivity.
Qed.

Lemma new_lenis : exists s, @new Color LenisScrollClass = Normal (Lenis s).
Proof. eexists. reflexivity. Qed.

Lemma setup_completes (pg : Page Color) :
  exists l a, setup pg = Normal {| lenis := Some (Lenis l); animations := a |}.
Proof.
  unfold setup. destruct new_lenis as [l ->]. cbn [bind].
  unfold initializeAnimations.
  destruct (has_home pg).
  - destruct (new_completes (HorizontalScrollClass (home_doc pg))) as [c ->].
    cbn. destruct (has_complex pg), (has_meduza pg); cbn; eexists; eexists; reflexivity.
  - cbn. destruct (has_complex pg), (has_meduza pg); cbn; eexists; eexists; reflexivity.
Qed.

(** C7 (amended). For the three classes that define [destroy] (LenisScroll,
    HorizontalScroll, ComplexHorizontal), constructing a controller on any
    document and calling [destroy] at once completes. MeduzaHorizontal is
    constructed without a [destroy] method, and the application's own
    teardown, which skips such controllers, completes on every page. *)
Theorem destroy_after_construction :
  completes (do c <- @new Color LenisScrollClass ; callDestroy c)
  /\ (forall d, completes (do c <- @new Color (HorizontalScrollClass d) ; callDestroy c))
  /\ (forall d (light dark : Color),
        completes (do c <- new (ComplexHorizontalClass d light dark) ; callDestroy c))
  /\ (forall d,
        exists c, @new Color (MeduzaHorizontalClass d) = Normal c
                  /\ destroyMethod c = None
                  /\ destroyIfDefined c = Normal c)
  /\ (forall pg : Page Color, completes (do a <- setup pg ; destroy a)).
Proof.
  split; [|split; [|split; [|split]]].
  - destruct new_lenis as [s ->]. cbn [bind].
    apply destroy_defined_completes. discriminate.
  - intros d. cbn [new].
    destruct (Visibility.construct_completes d) as [s ->]. cbn [bind].
    apply destroy_defined_completes. discriminate.
  - intros d light dark. cbn [new bind].
    apply destroy_defined_completes. discriminate.
  - intros d. eexists. split; [reflexivity|]. split; reflexivity.
  - intros pg. destruct (setup_completes pg) as (l & a & ->). cbn [bind].
    unfold destroy. cbn [animations lenis].
    destruct (destroyEach_completes a) as [a' ->]. cbn [bind truthy deref].
    destruct (destroy_defined_completes (Lenis l)) as [c' ->]; [discriminate|].
    eexists; reflexivity.
Qed.

End WithEngine.

(** C7 as stated fails for the gallery: [destroy] is not a method of a
    MeduzaHorizontal, so calling it right after construction throws. *)
Lemma gallery_has_no_destroy :
  (do c <- @new Rgb.Color (MeduzaHorizontalClass Sample.meduzaDocument) ;
   callDestroy c) = Throw TypeError.
Proof. reflexivity. Qed.

End Teardown.
